(** * SettingsPage: the settings screen of the news-digest application

    A shallow embedding of [src/pages/SettingsPage.tsx].

    The component is a view over a small local store.  Its event handlers are
    straight-line programs that call three kinds of collaborators: the storage
    service, the notification service and the browser (dialogs, reload,
    download, file reader), and that set React state variables.  The handlers
    are embedded as terms of a free monad [Prog] over the type [Call] of those
    calls, one constructor per imported function, so that each handler reads
    like its TypeScript source.  An interpreter [exec] runs a handler on a
    [World] (view state, store, platform) and records every call with its
    result in a log.

    The modules [../services/storageService], [../services/notificationService],
    [../types] and [../constants] are imported by the component; their
    definitions are not part of the embedded source file.  What the component
    uses of them is modelled in the modules [storageService] and
    [notificationService] below. *)

From Stdlib Require Import String Ascii List Bool Arith Lia Permutation.
From ExtLib Require Import Structures.Monad.
Import ListNotations.
Import MonadNotation.
Local Open Scope string_scope.
Local Open Scope list_scope.
Local Open Scope monad_scope.

Set Implicit Arguments.

(** ** Types used by the component (from ['../types']) *)

(** Modelled from the spec: the enum [NotificationFrequency] of ['../types'],
    whose declaration the component only imports.  The spec lists off, daily,
    every-other-day, three-times-daily and weekly; the source names the same
    five members in the [select] element of lines 272-276. *)
Inductive NotificationFrequency : Set :=
| OFF | DAILY | EVERY_OTHER | THREE_TIMES_DAY | WEEKLY.

(** [useState<'light' | 'dark'>]. *)
Inductive Theme : Set := light | dark.

(** Modelled from the spec: [PersonaType] of ['../types'], "an enumerated
    reading mode ... opaque to this component".  It is a string enum: the
    handler casts the [select]'s value, a string, to it
    ([e.target.value as PersonaType]). *)
Definition PersonaType : Set := string.

(** [LegalMode]: the three modes the screen opens the legal modal with. *)
Inductive LegalMode : Set := terms | privacy | support.

(** Modelled from the spec: the profile record of ['../types'], "persona,
    city, theme, notificationFrequency"; the field names are those the source
    reads in lines 42-45.  [city] and [notificationFrequency] may be absent:
    the mount effect reads them as [profile.city || ''] and
    [profile.notificationFrequency || NotificationFrequency.DAILY]. *)
Record UserProfile : Set := mkProfile {
  selectedPersona : PersonaType;
  city : option string;
  theme : Theme;
  notificationFrequency : option NotificationFrequency
}.

(** Object spread with one overridden key: [{ ...profile, city: newCity }]. *)
Definition with_city (p : UserProfile) (c : string) : UserProfile :=
  {| selectedPersona := selectedPersona p;
     city := Some c;
     theme := theme p;
     notificationFrequency := notificationFrequency p |}.

(** [{ ...profile, notificationFrequency: freq }]. *)
Definition with_notificationFrequency (p : UserProfile)
    (f : NotificationFrequency) : UserProfile :=
  {| selectedPersona := selectedPersona p;
     city := city p;
     theme := theme p;
     notificationFrequency := Some f |}.

Definition with_selectedPersona (p : UserProfile) (x : PersonaType) : UserProfile :=
  {| selectedPersona := x;
     city := city p;
     theme := theme p;
     notificationFrequency := notificationFrequency p |}.

Definition with_theme (p : UserProfile) (t : Theme) : UserProfile :=
  {| selectedPersona := selectedPersona p;
     city := city p;
     theme := t;
     notificationFrequency := notificationFrequency p |}.

Definition NotificationFrequency_eqb (a b : NotificationFrequency) : bool :=
  match a, b with
  | OFF, OFF | DAILY, DAILY | EVERY_OTHER, EVERY_OTHER
  | THREE_TIMES_DAY, THREE_TIMES_DAY | WEEKLY, WEEKLY => true
  | _, _ => false
  end.

(** A file chosen in the file picker, seen through [FileReader.readAsText]:
    the text the reader's [onload] event delivers. *)
Record File : Set := mkFile { fileText : string }.

(** ** The calls a handler makes *)

(** One constructor per function the component imports or per browser facility
    it uses, indexed by the type of the result.  The React state setters of
    lines 25-36 are calls as well. *)
Inductive Call : Type -> Type :=
(* '../services/storageService' *)
| getSelectedTopicIds : Call (list string)
| saveSelectedTopicIds (ids : list string) : Call unit
| getUserProfile : Call UserProfile
| setPersona (p : PersonaType) : Call unit
| saveUserProfile (p : UserProfile) : Call unit
| toggleTheme : Call Theme
| exportUserData : Call string
| importUserData (content : string) : Call bool
| hardResetApp : Call unit
(* '../services/notificationService' *)
| requestNotificationPermission : Call bool
| isNotificationSupported : Call bool
| getNotificationPermission : Call string
(* the browser *)
| alert (msg : string) : Call unit
| confirm (msg : string) : Call bool
| reload : Call unit
| isoDate : Call string
| download (name mime content : string) : Call unit
| readAsText (f : File) : Call string
| clickFileInput : Call unit
(* the component's props *)
| onThemeChange : Call unit
(* React state setters *)
| setSelectedIds (ids : list string) : Call unit
| setCurrentPersona (p : PersonaType) : Call unit
| setCity (c : string) : Call unit
| setExpandedCategories (cs : list string) : Call unit
| setShowProfileModal (b : bool) : Call unit
| setIsTopExpanded (b : bool) : Call unit
| setTheme (t : Theme) : Call unit
| setNotificationFreq (f : NotificationFrequency) : Call unit
| setNotificationPerm (p : string) : Call unit
| setShowMoreMenu (b : bool) : Call unit
| setLegalMode (m : option LegalMode) : Call unit.

(** Handlers: finite trees of calls. *)
Inductive Prog (A : Type) : Type :=
| Ret (a : A)
| Do (X : Type) (c : Call X) (k : X -> Prog A).

Arguments Ret {A} a.
Arguments Do {A X} c k.

Fixpoint Prog_bind {A B : Type} (p : Prog A) (f : A -> Prog B) : Prog B :=
  match p with
  | Ret a => f a
  | Do c k => Do c (fun x => Prog_bind (k x) f)
  end.

#[export] Instance Monad_Prog : Monad Prog :=
  {| ret := @Ret; bind := @Prog_bind |}.

Definition call {X : Type} (c : Call X) : Prog X := Do c Ret.

(** An early [return;] in a handler whose result is [void]. *)
Definition done : Prog unit := Ret tt.

(** ** The component's state and props *)

Record Props : Set := mkProps {
  hasOnFinish : bool;
  hasOnThemeChange : bool
}.

(** The state variables of lines 25-36, in the order of the source. *)
Record View : Set := mkView {
  selectedIds : list string;
  currentPersona : PersonaType;
  viewCity : string;
  expandedCategories : list string;
  showProfileModal : bool;
  isTopExpanded : bool;
  viewTheme : Theme;
  notificationFreq : NotificationFrequency;
  notificationPerm : string;
  showMoreMenu : bool;
  legalMode : option LegalMode
}.

(** ** The handlers, in the order of the source *)

(** [a || b] on an optional string: the empty string is falsy too. *)
Definition or_string (a : option string) (b : string) : string :=
  match a with
  | Some s => if String.eqb s "" then b else s
  | None => b
  end.

(** [a || b] on an optional member of a string enum (every member is a
    non-empty string, hence truthy). *)
Definition or_frequency (a : option NotificationFrequency)
    (b : NotificationFrequency) : NotificationFrequency :=
  match a with Some f => f | None => b end.

(** Lines 39-47: the effect that runs once, on mount. *)
Definition mountEffect : Prog unit :=
  profile <- call getUserProfile ;;
  ids <- call getSelectedTopicIds ;;
  call (setSelectedIds ids) ;;
  call (setCurrentPersona (selectedPersona profile)) ;;
  call (setCity (or_string (city profile) "")) ;;
  call (setTheme (theme profile)) ;;
  call (setNotificationFreq (or_frequency (notificationFrequency profile) DAILY)) ;;
  call (setExpandedCategories []).

(** Lines 49-53. *)
Definition handleToggleTheme (props : Props) : Prog unit :=
  newTheme <- call toggleTheme ;;
  call (setTheme newTheme) ;;
  if hasOnThemeChange props then call onThemeChange else done.

(** Lines 56-60. *)
Definition toggleTopic (id : string) : Prog unit :=
  let newIds := [id] in
  call (setSelectedIds newIds) ;;
  call (saveSelectedTopicIds newIds).

(** Lines 62-66. *)
Definition handlePersonaChange (value : string) : Prog unit :=
  let newPersona : PersonaType := value in
  call (setCurrentPersona newPersona) ;;
  call (setPersona newPersona).

(** Lines 68-73. *)
Definition handleCityChange (value : string) : Prog unit :=
  let newCity := value in
  call (setCity newCity) ;;
  profile <- call getUserProfile ;;
  call (saveUserProfile (with_city profile newCity)).

Definition msg_unsupported : string := "Váš prehliadač nepodporuje notifikácie.".
Definition msg_denied : string := "Notifikácie sú zakázané v systéme.".
Definition msg_reset : string := "POZOR: Toto vymaže všetky vaše dáta. Pokračovať?".
Definition msg_restored : string := "Dáta obnovené.".

(** Lines 91-93: the tail of [handleNotificationChange]. *)
Definition applyNotificationFreq (freq : NotificationFrequency) : Prog unit :=
  call (setNotificationFreq freq) ;;
  profile <- call getUserProfile ;;
  call (saveUserProfile (with_notificationFrequency profile freq)).

(** Lines 75-94.  The [select]'s value is one of its five options. *)
Definition handleNotificationChange (freq : NotificationFrequency) : Prog unit :=
  if negb (NotificationFrequency_eqb freq OFF) then
    supported <- call isNotificationSupported ;;
    if negb supported then
      call (alert msg_unsupported)
    else
      perm <- call getNotificationPermission ;;
      if negb (String.eqb perm "granted") then
        granted <- call requestNotificationPermission ;;
        perm' <- call getNotificationPermission ;;
        call (setNotificationPerm perm') ;;
        if negb granted then
          call (alert msg_denied)
        else applyNotificationFreq freq
      else applyNotificationFreq freq
  else applyNotificationFreq freq.

(** Lines 96-100. *)
Definition handleHardReset : Prog unit :=
  ok <- call (confirm msg_reset) ;;
  if (ok : bool) then call hardResetApp else done.

(** Lines 102-112.  The blob, the object URL, the anchor element and its click
    are one [download] call: file name, MIME type and content. *)
Definition handleExportData : Prog unit :=
  dataStr <- call exportUserData ;;
  day <- call isoDate ;;
  call (download ("ai_digest_backup_" ++ day ++ ".json") "application/json" dataStr).

(** Lines 114-116. *)
Definition handleImportClick : Prog unit := call clickFileInput.

(** Lines 118-133; [file] is [e.target.files?.[0]]. *)
Definition handleFileChange (file : option File) : Prog unit :=
  match file with
  | None => done
  | Some f =>
      content <- call (readAsText f) ;;
      if negb (String.eqb content "") then
        success <- call (importUserData content) ;;
        if (success : bool) then
          call (alert msg_restored) ;;
          call reload
        else done
      else done
  end.

(** Lines 135-141; [expanded] is the state the closure captured. *)
Definition toggleCategory (expanded : list string) (category : string) : Prog unit :=
  if existsb (String.eqb category) expanded then
    call (setExpandedCategories
            (filter (fun c => negb (String.eqb c category)) expanded))
  else
    call (setExpandedCategories (expanded ++ [category])).

(** Line 258: the click handler of the menu entry that starts the reset. *)
Definition onClickHardReset : Prog unit :=
  call (setShowMoreMenu false) ;;
  handleHardReset.

(** ** The storage service *)

Module storageService.

(** Modelled from the spec: the persisted data of [storageService], which the
    component reaches only through the functions below.  The spec's data model
    names a profile (persona, city, theme, notification frequency) and the
    selected topic ids. *)
Record Store : Set := mkStore {
  profile : UserProfile;
  topicIds : list string
}.

(** Modelled from the spec: [getSelectedTopicIds], "get selected topic ids". *)
Definition getSelectedTopicIds (s : Store) : list string := topicIds s.

(** Modelled from the spec: [saveSelectedTopicIds], "save selected topic ids". *)
Definition saveSelectedTopicIds (ids : list string) (s : Store) : Store :=
  {| profile := profile s; topicIds := ids |}.

(** Modelled from the spec: [getUserProfile], "get user profile". *)
Definition getUserProfile (s : Store) : UserProfile := profile s.

(** Modelled from the spec: [saveUserProfile], "save user profile". *)
Definition saveUserProfile (p : UserProfile) (s : Store) : Store :=
  {| profile := p; topicIds := topicIds s |}.

(** Modelled from the spec: [setPersona], "set persona"; as every profile edit
    it "reads the current full profile, overlays the single changed field, and
    writes the full profile back". *)
Definition setPersona (x : PersonaType) (s : Store) : Store :=
  saveUserProfile (with_selectedPersona (getUserProfile s) x) s.

Definition otherTheme (t : Theme) : Theme :=
  match t with light => dark | dark => light end.

(** Modelled from the spec: [toggleTheme], "toggle theme (returns new theme)". *)
Definition toggleTheme (s : Store) : Theme * Store :=
  let t := otherTheme (theme (getUserProfile s)) in
  (t, saveUserProfile (with_theme (getUserProfile s) t) s).

(** Modelled from the spec: [hardResetApp], "hard reset (irreversible wipe)",
    after which the store is "in its initial default state"; [initial] is that
    state. *)
Definition hardResetApp (initial : Store) (s : Store) : Store := initial.

(** *** The exported text

    Modelled from the spec: [exportUserData] "serializes the full user data
    store" as the text of a [.json] file, and [importUserData] takes such a
    text and reports success as a boolean.  The text is a JSON object with the
    profile and the topic ids; an absent profile field has no key.  The reader
    accepts the texts the writer produces. *)

Definition dquote : ascii := "034"%char.
Definition backslash : ascii := "092"%char.

Definition special (c : ascii) : bool :=
  Ascii.eqb c dquote || Ascii.eqb c backslash.

Fixpoint escape (s : string) : string :=
  match s with
  | EmptyString => EmptyString
  | String c r =>
      if special c then String backslash (String c (escape r))
      else String c (escape r)
  end.

Definition quoted (s : string) : string :=
  String dquote (escape s ++ String dquote EmptyString).

Definition key (k : string) : string := quoted k ++ ":".

Definition themeName (t : Theme) : string :=
  match t with light => "light" | dark => "dark" end.

Definition frequencyName (f : NotificationFrequency) : string :=
  match f with
  | OFF => "off"
  | DAILY => "daily"
  | EVERY_OTHER => "every_other"
  | THREE_TIMES_DAY => "three_times_day"
  | WEEKLY => "weekly"
  end.

Definition optionalField {A : Type} (k : string) (show : A -> string)
    (v : option A) : string :=
  match v with
  | Some a => "," ++ key k ++ quoted (show a)
  | None => ""
  end.

Definition profileText (p : UserProfile) : string :=
  "{" ++ key "selectedPersona" ++ quoted (selectedPersona p)
      ++ optionalField "city" (fun c => c) (city p)
      ++ "," ++ key "theme" ++ quoted (themeName (theme p))
      ++ optionalField "notificationFrequency" frequencyName
           (notificationFrequency p)
      ++ "}".

Fixpoint itemsText (l : list string) : string :=
  match l with
  | [] => ""
  | x :: r =>
      match r with
      | [] => quoted x
      | _ :: _ => quoted x ++ "," ++ itemsText r
      end
  end.

Definition arrayText (l : list string) : string := "[" ++ itemsText l ++ "]".

Definition storeText (s : Store) : string :=
  "{" ++ key "profile" ++ profileText (profile s)
      ++ "," ++ key "selectedTopicIds" ++ arrayText (topicIds s) ++ "}".

(** Modelled from the spec: [exportUserData], "export all data as text". *)
Definition exportUserData (s : Store) : string := storeText s.

(** The reader.  Every function takes the text still to read and returns what
    it read with the rest of the text. *)

Fixpoint expect (lit s : string) : option string :=
  match lit with
  | EmptyString => Some s
  | String a lit' =>
      match s with
      | String b s' => if Ascii.eqb a b then expect lit' s' else None
      | EmptyString => None
      end
  end.

(** The characters of a string literal up to its closing quote. *)
Fixpoint unescape (s : string) : option (string * string) :=
  match s with
  | EmptyString => None
  | String c r =>
      if Ascii.eqb c dquote then Some (EmptyString, r)
      else if Ascii.eqb c backslash then
        match r with
        | String d r' =>
            if special d then
              match unescape r' with
              | Some (v, rest) => Some (String d v, rest)
              | None => None
              end
            else None
        | EmptyString => None
        end
      else
        match unescape r with
        | Some (v, rest) => Some (String c v, rest)
        | None => None
        end
  end.

Definition readQuoted (s : string) : option (string * string) :=
  match s with
  | String c r => if Ascii.eqb c dquote then unescape r else None
  | EmptyString => None
  end.

Definition readTheme (s : string) : option (Theme * string) :=
  match readQuoted s with
  | Some (v, rest) =>
      if String.eqb v "light" then Some (light, rest)
      else if String.eqb v "dark" then Some (dark, rest)
      else None
  | None => None
  end.

Definition frequencyOfName (v : string) : option NotificationFrequency :=
  if String.eqb v "off" then Some OFF
  else if String.eqb v "daily" then Some DAILY
  else if String.eqb v "every_other" then Some EVERY_OTHER
  else if String.eqb v "three_times_day" then Some THREE_TIMES_DAY
  else if String.eqb v "weekly" then Some WEEKLY
  else None.

Definition readFrequency (s : string) : option (NotificationFrequency * string) :=
  match readQuoted s with
  | Some (v, rest) =>
      match frequencyOfName v with
      | Some f => Some (f, rest)
      | None => None
      end
  | None => None
  end.

(** A field that may be absent: read when its key comes next. *)
Definition readOptional {A : Type} (k : string)
    (read : string -> option (A * string)) (s : string)
    : option (option A * string) :=
  match expect ("," ++ key k) s with
  | Some s' =>
      match read s' with
      | Some (a, rest) => Some (Some a, rest)
      | None => None
      end
  | None => Some (None, s)
  end.

Definition readProfile (s : string) : option (UserProfile * string) :=
  match expect ("{" ++ key "selectedPersona") s with
  | None => None
  | Some s1 =>
  match readQuoted s1 with
  | None => None
  | Some (persona, s2) =>
  match readOptional "city" readQuoted s2 with
  | None => None
  | Some (c, s3) =>
  match expect ("," ++ key "theme") s3 with
  | None => None
  | Some s4 =>
  match readTheme s4 with
  | None => None
  | Some (t, s5) =>
  match readOptional "notificationFrequency" readFrequency s5 with
  | None => None
  | Some (f, s6) =>
  match expect "}" s6 with
  | None => None
  | Some s7 => Some (mkProfile persona c t f, s7)
  end end end end end end end.

(** The items of a non-empty array, up to and including the closing bracket.
    Each round reads one item; [fuel] bounds the number of rounds. *)
Fixpoint readItems (fuel : nat) (s : string) : option (list string * string) :=
  match fuel with
  | O => None
  | S n =>
      match readQuoted s with
      | None => None
      | Some (x, s1) =>
          match expect "," s1 with
          | Some s2 =>
              match readItems n s2 with
              | Some (r, rest) => Some (x :: r, rest)
              | None => None
              end
          | None =>
              match expect "]" s1 with
              | Some rest => Some ([x], rest)
              | None => None
              end
          end
      end
  end.

Definition readArray (s : string) : option (list string * string) :=
  match expect "[" s with
  | None => None
  | Some s1 =>
      match expect "]" s1 with
      | Some rest => Some ([], rest)
      | None => readItems (String.length s1) s1
      end
  end.

Definition readStore (s : string) : option Store :=
  match expect ("{" ++ key "profile") s with
  | None => None
  | Some s1 =>
  match readProfile s1 with
  | None => None
  | Some (p, s2) =>
  match expect ("," ++ key "selectedTopicIds") s2 with
  | None => None
  | Some s3 =>
  match readArray s3 with
  | None => None
  | Some (ids, s4) =>
  match expect "}" s4 with
  | Some EmptyString => Some (mkStore p ids)
  | _ => None
  end end end end end.

(** Modelled from the spec: [importUserData], "import data from text (returns
    success boolean)"; a text that is not an export leaves the store as it
    is. *)
Definition importUserData (content : string) (s : Store) : bool * Store :=
  match readStore content with
  | Some s' => (true, s')
  | None => (false, s)
  end.

End storageService.

(** ** The notification service *)

Module notificationService.

(** Modelled from the spec: what the platform knows about notifications, as
    [notificationService] reports it ("query support, query current
    permission"). *)
Record Platform : Set := mkPlatform {
  supported : bool;
  permission : string
}.

(** Modelled from the spec: [isNotificationSupported], "query support". *)
Definition isNotificationSupported (p : Platform) : bool := supported p.

(** Modelled from the spec: [getNotificationPermission], "query current
    permission". *)
Definition getNotificationPermission (p : Platform) : string := permission p.

End notificationService.

Abbreviation Store := storageService.Store.
Abbreviation Platform := notificationService.Platform.

(** ** Worlds *)

(** A call together with its result, as the log records it. *)
Inductive Event : Type :=
| Ev (X : Type) (c : Call X) (x : X).

Arguments Ev {X} c x.

(** What the user and the clock supply to a handler while it runs: the answer
    to a [confirm] dialog and the date part of [new Date().toISOString()]. *)
Record Env : Set := mkEnv {
  confirmAnswer : bool;
  today : string
}.

Record World : Type := mkWorld {
  view : View;
  store : Store;
  platform : Platform;
  log : list Event
}.

Definition onView (f : View -> View) (w : World) : World :=
  {| view := f (view w); store := store w; platform := platform w; log := log w |}.

Definition withStore (s : Store) (w : World) : World :=
  {| view := view w; store := s; platform := platform w; log := log w |}.

Definition withPlatform (p : Platform) (w : World) : World :=
  {| view := view w; store := store w; platform := p; log := log w |}.

Definition record (ev : Event) (w : World) : World :=
  {| view := view w; store := store w; platform := platform w;
     log := log w ++ [ev] |}.

(** The state setters. *)
Definition set_selectedIds (x : list string) (v : View) : View :=
  mkView x (currentPersona v) (viewCity v) (expandedCategories v)
    (showProfileModal v) (isTopExpanded v) (viewTheme v) (notificationFreq v)
    (notificationPerm v) (showMoreMenu v) (legalMode v).

Definition set_currentPersona (x : PersonaType) (v : View) : View :=
  mkView (selectedIds v) x (viewCity v) (expandedCategories v)
    (showProfileModal v) (isTopExpanded v) (viewTheme v) (notificationFreq v)
    (notificationPerm v) (showMoreMenu v) (legalMode v).

Definition set_city (x : string) (v : View) : View :=
  mkView (selectedIds v) (currentPersona v) x (expandedCategories v)
    (showProfileModal v) (isTopExpanded v) (viewTheme v) (notificationFreq v)
    (notificationPerm v) (showMoreMenu v) (legalMode v).

Definition set_expandedCategories (x : list string) (v : View) : View :=
  mkView (selectedIds v) (currentPersona v) (viewCity v) x
    (showProfileModal v) (isTopExpanded v) (viewTheme v) (notificationFreq v)
    (notificationPerm v) (showMoreMenu v) (legalMode v).

Definition set_showProfileModal (x : bool) (v : View) : View :=
  mkView (selectedIds v) (currentPersona v) (viewCity v) (expandedCategories v)
    x (isTopExpanded v) (viewTheme v) (notificationFreq v)
    (notificationPerm v) (showMoreMenu v) (legalMode v).

Definition set_isTopExpanded (x : bool) (v : View) : View :=
  mkView (selectedIds v) (currentPersona v) (viewCity v) (expandedCategories v)
    (showProfileModal v) x (viewTheme v) (notificationFreq v)
    (notificationPerm v) (showMoreMenu v) (legalMode v).

Definition set_theme (x : Theme) (v : View) : View :=
  mkView (selectedIds v) (currentPersona v) (viewCity v) (expandedCategories v)
    (showProfileModal v) (isTopExpanded v) x (notificationFreq v)
    (notificationPerm v) (showMoreMenu v) (legalMode v).

Definition set_notificationFreq (x : NotificationFrequency) (v : View) : View :=
  mkView (selectedIds v) (currentPersona v) (viewCity v) (expandedCategories v)
    (showProfileModal v) (isTopExpanded v) (viewTheme v) x
    (notificationPerm v) (showMoreMenu v) (legalMode v).

Definition set_notificationPerm (x : string) (v : View) : View :=
  mkView (selectedIds v) (currentPersona v) (viewCity v) (expandedCategories v)
    (showProfileModal v) (isTopExpanded v) (viewTheme v) (notificationFreq v)
    x (showMoreMenu v) (legalMode v).

Definition set_showMoreMenu (x : bool) (v : View) : View :=
  mkView (selectedIds v) (currentPersona v) (viewCity v) (expandedCategories v)
    (showProfileModal v) (isTopExpanded v) (viewTheme v) (notificationFreq v)
    (notificationPerm v) x (legalMode v).

Definition set_legalMode (x : option LegalMode) (v : View) : View :=
  mkView (selectedIds v) (currentPersona v) (viewCity v) (expandedCategories v)
    (showProfileModal v) (isTopExpanded v) (viewTheme v) (notificationFreq v)
    (notificationPerm v) (showMoreMenu v) x.

(** The result of running a handler: it finished, or it is suspended on a call
    whose result arrives later ([await requestNotificationPermission()], the
    file reader's [onload]) with the rest of the handler as continuation. *)
Inductive Outcome (A : Type) : Type :=
| Done (a : A) (w : World)
| Suspended (X : Type) (c : Call X) (k : X -> Prog A) (w : World).

Arguments Done {A} a w.
Arguments Suspended {A X} c k w.

Definition worldOf {A : Type} (o : Outcome A) : World :=
  match o with
  | Done _ w => w
  | Suspended _ _ w => w
  end.

Inductive Pending : Set :=
| AwaitPermission
| AwaitRead (f : File).

(** What a suspended handler waits for. *)
Definition pendingOn {A : Type} (o : Outcome A) : option Pending :=
  match o with
  | Done _ _ => None
  | Suspended c _ _ =>
      match c with
      | requestNotificationPermission => Some AwaitPermission
      | readAsText f => Some (AwaitRead f)
      | _ => None
      end
  end.

(** ** A concrete world

    A freshly installed application on a browser that supports notifications
    and has not yet been asked for permission. *)

Definition exampleProfile : UserProfile :=
  mkProfile "default" None light (Some DAILY).

Definition exampleStore : Store := storageService.mkStore exampleProfile [].

Definition examplePlatform : Platform :=
  notificationService.mkPlatform true "default".

Definition exampleEnv : Env := mkEnv false "2024-05-17".

Definition exampleView : View :=
  mkView [] "default" "" [] false true light DAILY "default" false None.

Definition exampleWorld : World :=
  mkWorld exampleView exampleStore examplePlatform [].

Section Component.

(** [PersonaType.DEFAULT], the initial value of [currentPersona] (line 26). *)
Variable DEFAULT : PersonaType.

(** The store's initial default state, which a hard reset restores. *)
Variable initialStore : Store.

(** Lines 25-36: the initial values of the state variables;
    [notificationPerm] starts as [getNotificationPermission()]. *)
Definition initialView (p : Platform) : View :=
  {| selectedIds := [];
     currentPersona := DEFAULT;
     viewCity := "";
     expandedCategories := [];
     showProfileModal := false;
     isTopExpanded := true;
     viewTheme := light;
     notificationFreq := DAILY;
     notificationPerm := notificationService.getNotificationPermission p;
     showMoreMenu := false;
     legalMode := None |}.

(** One synchronous call: its result and the world after it.  [None] for the
    two calls whose result arrives later. *)
Definition perform (e : Env) (X : Type) (c : Call X) (w : World)
    : option (X * World) :=
  match c in Call X return option (X * World) with
  | getSelectedTopicIds =>
      Some (storageService.getSelectedTopicIds (store w), w)
  | saveSelectedTopicIds ids =>
      Some (tt, withStore (storageService.saveSelectedTopicIds ids (store w)) w)
  | getUserProfile =>
      Some (storageService.getUserProfile (store w), w)
  | setPersona p =>
      Some (tt, withStore (storageService.setPersona p (store w)) w)
  | saveUserProfile p =>
      Some (tt, withStore (storageService.saveUserProfile p (store w)) w)
  | toggleTheme =>
      let r := storageService.toggleTheme (store w) in
      Some (fst r, withStore (snd r) w)
  | exportUserData =>
      Some (storageService.exportUserData (store w), w)
  | importUserData content =>
      let r := storageService.importUserData content (store w) in
      Some (fst r, withStore (snd r) w)
  | hardResetApp =>
      Some (tt, withStore (storageService.hardResetApp initialStore (store w)) w)
  | requestNotificationPermission => None
  | isNotificationSupported =>
      Some (notificationService.isNotificationSupported (platform w), w)
  | getNotificationPermission =>
      Some (notificationService.getNotificationPermission (platform w), w)
  | alert _ => Some (tt, w)
  | confirm _ => Some (confirmAnswer e, w)
  | reload => Some (tt, w)
  | isoDate => Some (today e, w)
  | download _ _ _ => Some (tt, w)
  | readAsText _ => None
  | clickFileInput => Some (tt, w)
  | onThemeChange => Some (tt, w)
  | setSelectedIds x => Some (tt, onView (set_selectedIds x) w)
  | setCurrentPersona x => Some (tt, onView (set_currentPersona x) w)
  | setCity x => Some (tt, onView (set_city x) w)
  | setExpandedCategories x => Some (tt, onView (set_expandedCategories x) w)
  | setShowProfileModal x => Some (tt, onView (set_showProfileModal x) w)
  | setIsTopExpanded x => Some (tt, onView (set_isTopExpanded x) w)
  | setTheme x => Some (tt, onView (set_theme x) w)
  | setNotificationFreq x => Some (tt, onView (set_notificationFreq x) w)
  | setNotificationPerm x => Some (tt, onView (set_notificationPerm x) w)
  | setShowMoreMenu x => Some (tt, onView (set_showMoreMenu x) w)
  | setLegalMode x => Some (tt, onView (set_legalMode x) w)
  end.

(** Runs a handler up to its end or to the first call it has to wait for. *)
Fixpoint exec {A : Type} (e : Env) (p : Prog A) (w : World) : Outcome A :=
  match p with
  | Ret a => Done a w
  | Do c k =>
      match perform e c w with
      | Some (x, w') => exec e (k x) (record (Ev c x) w')
      | None => Suspended c k w
      end
  end.

(** The awaited call [c] delivers [x] when the world is [w]: the rest of the
    handler runs from there. *)
Definition resume {A X : Type} (e : Env) (c : Call X) (k : X -> Prog A)
    (x : X) (w : World) : Outcome A :=
  exec e (k x) (record (Ev c x) w).

(** The permission prompt of a suspended handler closes with [granted], in the
    world [w] of that moment.  [None] when [o] does not wait for it. *)
Definition resolvePermission {A : Type} (e : Env) (granted : bool) (w : World)
    (o : Outcome A) : option (Outcome A) :=
  match o with
  | Done _ _ => None
  | Suspended c k _ =>
      match c in Call X return (X -> Prog A) -> option (Outcome A) with
      | requestNotificationPermission =>
          fun k => Some (resume e requestNotificationPermission k granted w)
      | _ => fun _ => None
      end k
  end.

(** The file reader of a suspended handler delivers the file's text. *)
Definition resolveRead {A : Type} (e : Env) (w : World)
    (o : Outcome A) : option (Outcome A) :=
  match o with
  | Done _ _ => None
  | Suspended c k _ =>
      match c in Call X return (X -> Prog A) -> option (Outcome A) with
      | readAsText f =>
          fun k => Some (resume e (readAsText f) k (fileText f) w)
      | _ => fun _ => None
      end k
  end.

(** ** The screen as a transition system

    User events fire handlers one at a time; a handler that awaits the
    permission prompt is parked, and other events may run before the prompt
    closes. *)

Record Sys : Type := mkSys {
  world : World;
  tasks : list (Outcome unit)
}.

Inductive Action : Type :=
| Mount
| ClickTheme (props : Props)
| ClickTopic (id : string)
| ChangePersona (value : string)
| ChangeCity (value : string)
| ChangeNotification (freq : NotificationFrequency)
| PromptClosed (i : nat) (granted : bool) (after : Platform)
| PlatformChanged (p : Platform).

(** Where a handler's outcome leaves the system: a suspended handler joins
    the parked ones. *)
Definition settle (o : Outcome unit) (ts : list (Outcome unit)) : Sys :=
  match o with
  | Done _ w => mkSys w ts
  | Suspended _ _ w => mkSys w (ts ++ [o])
  end.

Definition fire (e : Env) (p : Prog unit) (s : Sys) : Sys :=
  settle (exec e p (world s)) (tasks s).

Fixpoint dropNth {A : Type} (i : nat) (l : list A) : list A :=
  match l, i with
  | [], _ => []
  | _ :: r, O => r
  | x :: r, S j => x :: dropNth j r
  end.

(** One transition.  [Mount] is the first render of a (re)loaded page: fresh
    state variables, no parked handlers, then the mount effect. *)
Definition step (e : Env) (a : Action) (s : Sys) : Sys :=
  match a with
  | Mount =>
      fire e mountEffect
        (mkSys (onView (fun _ => initialView (platform (world s))) (world s)) [])
  | ClickTheme props => fire e (handleToggleTheme props) s
  | ClickTopic id => fire e (toggleTopic id) s
  | ChangePersona v => fire e (handlePersonaChange v) s
  | ChangeCity v => fire e (handleCityChange v) s
  | ChangeNotification f => fire e (handleNotificationChange f) s
  | PromptClosed i granted after =>
      match nth_error (tasks s) i with
      | None => s
      | Some o =>
          match resolvePermission e granted (withPlatform after (world s)) o with
          | None => s
          | Some o' => settle o' (dropNth i (tasks s))
          end
      end
  | PlatformChanged p => mkSys (withPlatform p (world s)) (tasks s)
  end.

Fixpoint run (acts : list (Env * Action)) (s : Sys) : Sys :=
  match acts with
  | [] => s
  | (e, a) :: rest => run rest (step e a s)
  end.

(** The system before the first render, over a store that holds the profile
    [p0] and no selected topic. *)
Definition initialSys (p0 : UserProfile) (plat : Platform) : Sys :=
  mkSys {| view := initialView plat;
           store := storageService.mkStore p0 [];
           platform := plat;
           log := [] |} [].

(** The page after [window.location.reload()]: the component mounts afresh
    over the store as it is. *)
Definition remount (e : Env) (w : World) : Outcome unit :=
  exec e mountEffect (onView (fun _ => initialView (platform w)) w).

(** ** Vocabulary of the properties *)

(** [w] with the events [evs] added to its log. *)
Definition logged (evs : list Event) (w : World) : World :=
  {| view := view w; store := store w; platform := platform w;
     log := log w ++ evs |}.

(** A call to the notification service. *)
Definition isNotificationCall (ev : Event) : bool :=
  match ev with
  | Ev c _ =>
      match c with
      | requestNotificationPermission
      | isNotificationSupported
      | getNotificationPermission => true
      | _ => false
      end
  end.

(** A call to the store's wipe routine. *)
Definition isWipe (ev : Event) : bool :=
  match ev with
  | Ev c _ => match c with hardResetApp => true | _ => false end
  end.

(** A call to the store's import routine. *)
Definition isImport (ev : Event) : bool :=
  match ev with
  | Ev c _ => match c with importUserData _ => true | _ => false end
  end.

(** Something the user sees: a dialog or a reload. *)
Definition isVisible (ev : Event) : bool :=
  match ev with
  | Ev c _ =>
      match c with
      | alert _ | confirm _ | reload => true
      | _ => false
      end
  end.

(** The store after a read-modify-write of the profile with [overlay]. *)
Definition rmwStore (overlay : UserProfile -> UserProfile) (s : Store) : Store :=
  storageService.saveUserProfile (overlay (storageService.getUserProfile s)) s.

(** The two calls of a read-modify-write: the read delivers [p], the write
    stores [overlay p]. *)
Definition rmwTrace (overlay : UserProfile -> UserProfile) (p : UserProfile)
    : list Event :=
  [Ev getUserProfile p; Ev (saveUserProfile (overlay p)) tt].

Definition endsWith (l suffix : list Event) : Prop :=
  exists pre, l = pre ++ suffix.

(** At most one selected id, in the view and in the store. *)
Definition selInv (w : World) : Prop :=
  length (selectedIds (view w)) <= 1 /\
  length (storageService.topicIds (store w)) <= 1.

(** Calls that keep [selInv]: a selection that is set or saved holds at most
    one id.  Import and hard reset replace the store by data from elsewhere. *)
Definition callKeeps (X : Type) (c : Call X) : Prop :=
  match c with
  | saveSelectedTopicIds ids => length ids <= 1
  | setSelectedIds ids => length ids <= 1
  | importUserData _ => False
  | hardResetApp => False
  | _ => True
  end.

(** What [selInv] says about the result of a call. *)
Definition answerKeeps (X : Type) (c : Call X) : X -> Prop :=
  match c in Call X return X -> Prop with
  | getSelectedTopicIds => fun ids => length ids <= 1
  | _ => fun _ => True
  end.

(** Handlers all of whose calls keep [selInv], whatever the calls deliver
    within [answerKeeps]. *)
Inductive Keeps (A : Type) : Prog A -> Prop :=
| Keeps_Ret (a : A) : Keeps (Ret a)
| Keeps_Do (X : Type) (c : Call X) (k : X -> Prog A) :
    callKeeps c ->
    (forall x, answerKeeps c x -> Keeps (k x)) ->
    Keeps (Do c k).

Definition taskKeeps (o : Outcome unit) : Prop :=
  match o with
  | Done _ _ => True
  | Suspended c k _ => forall x, answerKeeps c x -> Keeps (k x)
  end.

Definition sysInv (s : Sys) : Prop :=
  selInv (world s) /\ Forall taskKeeps (tasks s).

(** The world after [toggleTopic id]. *)
Definition afterToggle (id : string) (w : World) : World :=
  logged [Ev (setSelectedIds [id]) tt; Ev (saveSelectedTopicIds [id]) tt]
    (withStore (storageService.saveSelectedTopicIds [id] (store w))
       (onView (set_selectedIds [id]) w)).

(** The overlays of the three profile edits. *)
Definition overlayCity (c : string) (p : UserProfile) : UserProfile :=
  with_city p c.

Definition overlayFrequency (f : NotificationFrequency) (p : UserProfile)
    : UserProfile :=
  with_notificationFrequency p f.

Definition overlayPersona (x : PersonaType) (p : UserProfile) : UserProfile :=
  with_selectedPersona p x.

(** The world after lines 91-93 have run from [w]. *)
Definition afterApply (f : NotificationFrequency) (w : World) : World :=
  logged (Ev (setNotificationFreq f) tt
            :: rmwTrace (overlayFrequency f)
                 (storageService.getUserProfile (store w)))
    (withStore (rmwStore (overlayFrequency f) (store w))
       (onView (set_notificationFreq f) w)).

(** The world after lines 83-84 have run from [w], where the prompt closed
    with [granted]. *)
Definition afterPrompt (granted : bool) (w : World) : World :=
  let perm := notificationService.getNotificationPermission (platform w) in
  logged [Ev requestNotificationPermission granted;
          Ev getNotificationPermission perm;
          Ev (setNotificationPerm perm) tt]
    (onView (set_notificationPerm perm) w).

(** The queries of lines 78 and 82, both answered in favour. *)
Definition afterQueries (w : World) : World :=
  logged [Ev isNotificationSupported true;
          Ev getNotificationPermission
             (notificationService.getNotificationPermission (platform w))] w.

(** The guard of lines 77-90 when it lets the change through without a
    prompt: the value is off, or notifications are supported and permitted. *)
Definition passesGuard (f : NotificationFrequency) (p : Platform) : bool :=
  NotificationFrequency_eqb f OFF
  || (notificationService.isNotificationSupported p
      && String.eqb (notificationService.getNotificationPermission p) "granted").

(** The world after the reader has delivered the text of [f] in [w]
    (lines 122-131). *)
Definition afterRead (f : File) (w : World) : World :=
  let text := fileText f in
  if String.eqb text "" then logged [Ev (readAsText f) text] w
  else
    let r := storageService.importUserData text (store w) in
    if fst r then
      logged [Ev (readAsText f) text; Ev (importUserData text) true;
              Ev (alert msg_restored) tt; Ev reload tt]
        (withStore (snd r) w)
    else
      logged [Ev (readAsText f) text; Ev (importUserData text) false]
        (withStore (snd r) w).

(** Proves [Keeps] of a handler by walking its calls and branches. *)
Ltac keeps :=
  repeat match goal with
  | |- Keeps (Ret _) => apply Keeps_Ret
  | |- Keeps done => apply Keeps_Ret
  | |- Keeps (call _) => unfold call
  | |- Keeps (Do _ _) =>
      apply Keeps_Do; [cbn; auto with arith | intros ? ?; cbn in *]
  | |- Keeps (if ?b then _ else _) => destruct b; cbn
  | |- Keeps _ => progress cbn
  end.

(** ** The topic catalogue and what the screen renders *)

(** Modelled from the spec: a topic of the catalogue, "id, name, category",
    the three fields the source reads ([topic.id], [topic.name],
    [topic.category]).  The catalogue itself, [AVAILABLE_TOPICS] of
    ['../constants'], is an argument of the functions below. *)
Record Topic : Set := mkTopic {
  topicId : string;
  topicName : string;
  topicCategory : string
}.

(** [l.includes(x)] on an array of strings. *)
Definition includes (l : list string) (x : string) : bool :=
  existsb (String.eqb x) l.

(** The accumulator of the [reduce] of lines 143-147: an object used as a map
    from category to topics, as its entries in the order the keys were
    added (the order of [Object.entries] for keys that are not array
    indices). *)
Definition Groups : Set := list (string * list Topic).

(** [acc[c]] for a key that the object owns. *)
Fixpoint lookupGroup (c : string) (acc : Groups) : option (list Topic) :=
  match acc with
  | [] => None
  | (k, ts) :: rest => if String.eqb k c then Some ts else lookupGroup c rest
  end.

(** [acc[c].push(t)]. *)
Fixpoint pushTo (c : string) (t : Topic) (acc : Groups) : Groups :=
  match acc with
  | [] => []
  | (k, ts) :: rest =>
      if String.eqb k c then (k, ts ++ [t]) :: rest
      else (k, ts) :: pushTo c t rest
  end.

(** The property names an object literal inherits from [Object.prototype].
    For such a key [acc[key]] is truthy although the object does not own the
    key, and its value has no [push]. *)
Definition inheritedNames : list string :=
  ["constructor"; "__proto__"; "hasOwnProperty"; "isPrototypeOf";
   "propertyIsEnumerable"; "toLocaleString"; "toString"; "valueOf";
   "__defineGetter__"; "__defineSetter__"; "__lookupGetter__";
   "__lookupSetter__"].

Definition inherited (k : string) : bool := includes inheritedNames k.

(** The reducer of lines 144-146.  [None] is the [TypeError] of
    [acc[topic.category].push] on an inherited value. *)
Definition groupStep (acc : Groups) (topic : Topic) : option Groups :=
  let c := topicCategory topic in
  if inherited c then None
  else
    let acc1 :=
      match lookupGroup c acc with
      | None => acc ++ [(c, [])]
      | Some _ => acc
      end in
    Some (pushTo c topic acc1).

(** [topics.reduce(step, acc)]. *)
Fixpoint reduceGroups (topics : list Topic) (acc : Groups) : option Groups :=
  match topics with
  | [] => Some acc
  | t :: rest =>
      match groupStep acc t with
      | Some acc' => reduceGroups rest acc'
      | None => None
      end
  end.

(** Lines 143-147. *)
Definition groupedTopics (topics : list Topic) : option Groups :=
  reduceGroups topics [].

(** Line 149. *)
Definition topTopicIds : list string :=
  ["slovakia_domestic"; "new_ai_models"; "science"; "sports_marketing";
   "politics"; "renewable_energy"; "f1_motorsport"].

(** Line 150. *)
Definition topTopics (topics : list Topic) : list Topic :=
  filter (fun t => includes topTopicIds (topicId t)) topics.

(** The topics of one category, in the order of the catalogue. *)
Definition ofCategory (c : string) (topics : list Topic) : list Topic :=
  filter (fun t => String.eqb (topicCategory t) c) topics.

Definition msg_none : string := "Žiadny výber".
Definition msg_one : string := "1 téma".

(** Line 173: the badge above the categories. *)
Definition badge (v : View) : string :=
  if Nat.eqb (length (selectedIds v)) 0 then msg_none else msg_one.

(** Lines 186 and 216: [selectedIds.includes(topic.id)]. *)
Definition isSelected (v : View) (t : Topic) : bool :=
  includes (selectedIds v) (topicId t).

(** Line 200. *)
Definition selectedCount (v : View) (topics : list Topic) : nat :=
  length (filter (isSelected v) topics).

(** Line 207: the category's name is highlighted. *)
Definition highlighted (v : View) (topics : list Topic) : bool :=
  Nat.ltb 0 (selectedCount v topics).

(** Line 233: the button that starts the digest is rendered. *)
Definition generateShown (props : Props) (v : View) : bool :=
  Nat.ltb 0 (length (selectedIds v)) && hasOnFinish props.

(** Lines 244 and 252: the menu is rendered inside the profile modal. *)
Definition moreMenuShown (v : View) : bool :=
  showProfileModal v && showMoreMenu v.

(** ** The click handlers written inline in the markup *)

(** Line 163. *)
Definition openProfile : Prog unit := call (setShowProfileModal true).

(** Lines 246 and 261. *)
Definition closeProfile : Prog unit := call (setShowProfileModal false).

(** Line 251; [shown] is the [showMoreMenu] the closure captured. *)
Definition toggleMoreMenu (shown : bool) : Prog unit :=
  call (setShowMoreMenu (negb shown)).

(** Lines 254-256. *)
Definition openLegal (m : LegalMode) : Prog unit :=
  call (setLegalMode (Some m)) ;;
  call (setShowMoreMenu false).

(** Line 298: the modal's [onClose]. *)
Definition closeLegal : Prog unit := call (setLegalMode None).

(** Line 179; [expanded] is the [isTopExpanded] the closure captured. *)
Definition toggleTop (expanded : bool) : Prog unit :=
  call (setIsTopExpanded (negb expanded)).

(** A click on a category header: [toggleCategory] with the state of the
    render the click happened in. *)
Definition clickCategory (e : Env) (category : string) (w : World) : World :=
  worldOf (exec e (toggleCategory (expandedCategories (view w)) category) w).

Fixpoint clickCategories (e : Env) (cs : list string) (w : World) : World :=
  match cs with
  | [] => w
  | c :: rest => clickCategories e rest (clickCategory e c w)
  end.

(** ** What the screen shows and what a transition does *)

(** An event that destroys or replaces stored data, or reloads the page. *)
Definition harmfulEvent (ev : Event) : bool :=
  match ev with
  | Ev c _ =>
      match c with
      | importUserData _ | hardResetApp | reload => true
      | _ => false
      end
  end.



(** What is left of [handleNotificationChange freq] after the [await] of
    line 83. *)
Definition afterAwait (freq : NotificationFrequency) (granted : bool)
    : Prog unit :=
  perm' <- call getNotificationPermission ;;
  call (setNotificationPerm perm') ;;
  if negb granted then call (alert msg_denied)
  else applyNotificationFreq freq.

(** A parked handler is a frequency change waiting for its prompt. *)
Definition frequencyTask (o : Outcome unit) : Prop :=
  exists (f : NotificationFrequency) (w : World),
    o = Suspended requestNotificationPermission (afterAwait f) w.

(** What one transition of [step] does to the world: nothing, a change of
    the platform, a mount, one of the five handlers up to its end or its
    [await], or the rest of a frequency change once its prompt has closed. *)
Inductive Moved : World -> World -> Prop :=
| Moved_stay (w : World) : Moved w w
| Moved_platform (p : Platform) (w : World) : Moved w (withPlatform p w)
| Moved_mount (e : Env) (w : World) : Moved w (worldOf (remount e w))
| Moved_theme (e : Env) (props : Props) (w : World) :
    Moved w (worldOf (exec e (handleToggleTheme props) w))
| Moved_topic (e : Env) (id : string) (w : World) :
    Moved w (worldOf (exec e (toggleTopic id) w))
| Moved_persona (e : Env) (v : string) (w : World) :
    Moved w (worldOf (exec e (handlePersonaChange v) w))
| Moved_city (e : Env) (v : string) (w : World) :
    Moved w (worldOf (exec e (handleCityChange v) w))
| Moved_frequency (e : Env) (f : NotificationFrequency) (w : World) :
    Moved w (worldOf (exec e (handleNotificationChange f) w))
| Moved_prompt (e : Env) (f : NotificationFrequency) (granted : bool)
    (p : Platform) (w : World) :
    Moved w
      (worldOf (resume e requestNotificationPermission (afterAwait f)
                  granted (withPlatform p w))).

(** A handler of the transition system either ends or parks a frequency
    change. *)
Definition endsOrParks (o : Outcome unit) : Prop :=
  match o with
  | Done _ _ => True
  | Suspended _ _ _ => frequencyTask o
  end.

(** A small catalogue: three topics in two categories. *)
Definition exampleTopics : list Topic :=
  [mkTopic "science" "Veda" "Veda a budúcnosť";
   mkTopic "politics" "Politika" "Spoločnosť";
   mkTopic "space" "Vesmír" "Veda a budúcnosť"].

Definition exampleGroups : Groups :=
  [("Veda a budúcnosť",
    [mkTopic "science" "Veda" "Veda a budúcnosť";
     mkTopic "space" "Vesmír" "Veda a budúcnosť"]);
   ("Spoločnosť", [mkTopic "politics" "Politika" "Spoločnosť"])].

(** ** The exported text is read back *)

Lemma append_assoc (a b c : string) :
  ((a ++ b) ++ c)%string = (a ++ (b ++ c))%string.
Proof.
  induction a as [|x a IH]; simpl; [reflexivity | now rewrite IH].
Qed.

Lemma length_append (a b : string) :
  String.length (a ++ b) = String.length a + String.length b.
Proof.
  induction a as [|x a IH]; simpl; [reflexivity | now rewrite IH].
Qed.

Lemma expect_append (lit rest : string) :
  storageService.expect lit (lit ++ rest) = Some rest.
Proof.
  induction lit as [|a lit IH]; simpl; [reflexivity |].
  now rewrite Ascii.eqb_refl.
Qed.

Lemma unescape_escape (s rest : string) :
  storageService.unescape
    (storageService.escape s ++ String storageService.dquote rest)
  = Some (s, rest).
Proof.
  induction s as [|c s IH]; [reflexivity |].
  cbn [storageService.escape].
  destruct (storageService.special c) eqn:Hc.
  - cbn [append storageService.unescape].
    change (Ascii.eqb storageService.backslash storageService.dquote) with false.
    rewrite Ascii.eqb_refl. cbv iota.
    rewrite Hc, IH. reflexivity.
  - unfold storageService.special in Hc.
    apply orb_false_elim in Hc. destruct Hc as [Hq Hb].
    cbn [append storageService.unescape].
    rewrite Hq, Hb, IH. reflexivity.
Qed.

Lemma readQuoted_quoted (s rest : string) :
  storageService.readQuoted (storageService.quoted s ++ rest) = Some (s, rest).
Proof.
  unfold storageService.quoted, storageService.readQuoted.
  cbn [append]. rewrite Ascii.eqb_refl, append_assoc.
  apply unescape_escape.
Qed.

Lemma readTheme_themeName (t : Theme) (rest : string) :
  storageService.readTheme
    (storageService.quoted (storageService.themeName t) ++ rest)
  = Some (t, rest).
Proof.
  unfold storageService.readTheme. rewrite readQuoted_quoted.
  destruct t; reflexivity.
Qed.

Lemma readFrequency_frequencyName (f : NotificationFrequency) (rest : string) :
  storageService.readFrequency
    (storageService.quoted (storageService.frequencyName f) ++ rest)
  = Some (f, rest).
Proof.
  unfold storageService.readFrequency. rewrite readQuoted_quoted.
  destruct f; reflexivity.
Qed.

(** A field that is present is read with the reader of its value. *)
Lemma readOptional_present (A : Type) (k : string) (show : A -> string)
    (read : string -> option (A * string)) (a : A) (rest : string) :
  read (storageService.quoted (show a) ++ rest)%string = Some (a, rest) ->
  storageService.readOptional k read
    (storageService.optionalField k show (Some a) ++ rest)
  = Some (Some a, rest).
Proof.
  intros Hread.
  unfold storageService.readOptional, storageService.optionalField.
  rewrite !append_assoc.
  change ("," ++ (storageService.key k ++ (storageService.quoted (show a) ++ rest)))%string
    with (("," ++ storageService.key k) ++ (storageService.quoted (show a) ++ rest))%string.
  rewrite expect_append, Hread. reflexivity.
Qed.

Lemma readProfile_profileText (p : UserProfile) (rest : string) :
  storageService.readProfile (storageService.profileText p ++ rest)
  = Some (p, rest).
Proof.
  destruct p as [persona c t f].
  unfold storageService.profileText, storageService.readProfile.
  cbn [selectedPersona city theme notificationFrequency].
  rewrite !append_assoc.
  rewrite <- (append_assoc "{" (storageService.key "selectedPersona")).
  rewrite expect_append, readQuoted_quoted.
  assert (Hcity :
    storageService.readOptional "city" storageService.readQuoted
      (storageService.optionalField "city" (fun c => c) c ++
       "," ++ storageService.key "theme" ++
       storageService.quoted (storageService.themeName t) ++
       storageService.optionalField "notificationFrequency"
         storageService.frequencyName f ++ "}" ++ rest)
    = Some (c, ("," ++ storageService.key "theme" ++
       storageService.quoted (storageService.themeName t) ++
       storageService.optionalField "notificationFrequency"
         storageService.frequencyName f ++ "}" ++ rest)%string)).
  { destruct c as [c|].
    - apply readOptional_present with (show := fun c : string => c).
      apply readQuoted_quoted.
    - reflexivity. }
  rewrite Hcity.
  rewrite <- (append_assoc "," (storageService.key "theme")).
  rewrite expect_append, readTheme_themeName.
  assert (Hfreq :
    storageService.readOptional "notificationFrequency"
      storageService.readFrequency
      (storageService.optionalField "notificationFrequency"
         storageService.frequencyName f ++ "}" ++ rest)
    = Some (f, ("}" ++ rest)%string)).
  { destruct f as [f|].
    - apply readOptional_present. apply readFrequency_frequencyName.
    - reflexivity. }
  rewrite Hfreq. reflexivity.
Qed.

Lemma quoted_length (s : string) :
  2 <= String.length (storageService.quoted s).
Proof.
  unfold storageService.quoted. cbn [String.length].
  rewrite length_append. cbn [String.length]. lia.
Qed.

(** An array holds at least one character per item, so the number of
    characters bounds the number of rounds of [readItems]. *)
Lemma itemsText_length (l : list string) :
  length l <= String.length (storageService.itemsText l).
Proof.
  induction l as [|x l IH]; [apply le_n |].
  destruct l as [|y l].
  - cbn [storageService.itemsText length].
    pose proof (quoted_length x). lia.
  - change (storageService.itemsText (x :: y :: l))
      with (storageService.quoted x ++ "," ++ storageService.itemsText (y :: l))%string.
    rewrite !length_append. cbn [length] in *.
    pose proof (quoted_length x). lia.
Qed.

Lemma readItems_itemsText (l : list string) :
  forall (x : string) (rest : string) (fuel : nat),
    length l < fuel ->
    storageService.readItems fuel
      (storageService.itemsText (x :: l) ++ "]" ++ rest)
    = Some (x :: l, rest).
Proof.
  induction l as [|y l IH]; intros x rest fuel Hfuel.
  - destruct fuel as [|n]; [inversion Hfuel |].
    cbn [storageService.itemsText storageService.readItems].
    rewrite readQuoted_quoted. reflexivity.
  - destruct fuel as [|n]; [inversion Hfuel |].
    change (storageService.itemsText (x :: y :: l))
      with (storageService.quoted x ++ "," ++ storageService.itemsText (y :: l))%string.
    cbn [storageService.readItems].
    rewrite !append_assoc, readQuoted_quoted, expect_append.
    rewrite IH by (cbn [length] in Hfuel; lia).
    reflexivity.
Qed.

Lemma readArray_arrayText (l : list string) (rest : string) :
  storageService.readArray (storageService.arrayText l ++ rest)
  = Some (l, rest).
Proof.
  unfold storageService.arrayText, storageService.readArray.
  rewrite !append_assoc, expect_append.
  destruct l as [|x l]; [reflexivity |].
  assert (Hopen :
    storageService.expect "]"
      (storageService.itemsText (x :: l) ++ "]" ++ rest) = None).
  { destruct l; reflexivity. }
  rewrite Hopen.
  apply readItems_itemsText.
  rewrite length_append.
  pose proof (itemsText_length (x :: l)) as Hlen.
  cbn [length] in Hlen. lia.
Qed.

Lemma readStore_storeText (s : Store) :
  storageService.readStore (storageService.storeText s) = Some s.
Proof.
  destruct s as [p ids].
  unfold storageService.storeText, storageService.readStore.
  cbn [storageService.profile storageService.topicIds].
  rewrite <- (append_assoc "{" (storageService.key "profile")).
  rewrite expect_append, readProfile_profileText.
  rewrite <- (append_assoc "," (storageService.key "selectedTopicIds")).
  rewrite expect_append, readArray_arrayText.
  reflexivity.
Qed.

(** Import of an export succeeds and yields the exported store, whatever the
    store holds at the time of the import. *)
Lemma import_export (s current : Store) :
  storageService.importUserData (storageService.exportUserData s) current
  = (true, s).
Proof.
  unfold storageService.importUserData, storageService.exportUserData.
  rewrite readStore_storeText. reflexivity.
Qed.

(** An export is never the empty text. *)
Lemma export_nonempty (s : Store) :
  String.eqb (storageService.exportUserData s) "" = false.
Proof. reflexivity. Qed.

(** ** Topic selection *)

Lemma exec_toggleTopic (e : Env) (id : string) (w : World) :
  exec e (toggleTopic id) w = Done tt (afterToggle id w).
Proof.
  cbn. unfold afterToggle, record, logged, withStore, onView. cbn.
  now rewrite <- app_assoc.
Qed.

(** C1.  Selecting a topic runs to its end without waiting for anything, sets
    the in-memory selection to the singleton of that topic's id, whatever was
    selected before, and writes that same singleton to the store: the handler
    makes exactly the two calls [setSelectedIds [id]] and
    [saveSelectedTopicIds [id]], after which the view and the store both hold
    [[id]].  Selecting [b] after [a] leaves [[b]]. *)
Theorem toggleTopic_replaces_and_persists (e : Env) (w : World) (a b : string) :
  let o := exec e (toggleTopic b) w in
  pendingOn o = None /\
  selectedIds (view (worldOf o)) = [b] /\
  storageService.getSelectedTopicIds (store (worldOf o)) = [b] /\
  selectedIds (view (worldOf o))
    = storageService.getSelectedTopicIds (store (worldOf o)) /\
  log (worldOf o)
    = log w ++ [Ev (setSelectedIds [b]) tt; Ev (saveSelectedTopicIds [b]) tt] /\
  storageService.getUserProfile (store (worldOf o))
    = storageService.getUserProfile (store w) /\
  selectedIds
    (view (worldOf (exec e (toggleTopic b) (worldOf (exec e (toggleTopic a) w)))))
    = [b].
Proof.
  cbv zeta. rewrite !exec_toggleTopic. cbn. repeat split; reflexivity.
Qed.

(** C9.  Selecting the same topic twice in succession leaves the view and the
    store exactly as the first selection left them, both holding the
    singleton of that topic. *)
Theorem toggleTopic_idempotent (e : Env) (w : World) (id : string) :
  let w1 := worldOf (exec e (toggleTopic id) w) in
  let w2 := worldOf (exec e (toggleTopic id) w1) in
  view w2 = view w1 /\
  store w2 = store w1 /\
  selectedIds (view w2) = [id] /\
  storageService.getSelectedTopicIds (store w2) = [id].
Proof.
  cbv zeta. rewrite !exec_toggleTopic. cbn. repeat split; reflexivity.
Qed.

(** ** Profile edits *)

Lemma exec_applyNotificationFreq (e : Env) (f : NotificationFrequency) (w : World) :
  exec e (applyNotificationFreq f) w = Done tt (afterApply f w).
Proof.
  cbn. unfold afterApply, rmwTrace, rmwStore, record, logged, withStore, onView.
  cbn. now rewrite <- !app_assoc.
Qed.

Lemma exec_handleCityChange (e : Env) (c : string) (w : World) :
  exec e (handleCityChange c) w
  = Done tt
      (logged (Ev (setCity c) tt
                 :: rmwTrace (overlayCity c)
                      (storageService.getUserProfile (store w)))
         (withStore (rmwStore (overlayCity c) (store w))
            (onView (set_city c) w))).
Proof.
  cbn. unfold rmwTrace, rmwStore, record, logged, withStore, onView.
  cbn. now rewrite <- !app_assoc.
Qed.

Lemma exec_handlePersonaChange (e : Env) (v : string) (w : World) :
  exec e (handlePersonaChange v) w
  = Done tt
      (logged [Ev (setCurrentPersona v) tt; Ev (setPersona v) tt]
         (withStore (storageService.setPersona v (store w))
            (onView (set_currentPersona v) w))).
Proof.
  cbn. unfold record, logged, withStore, onView.
  cbn. now rewrite <- !app_assoc.
Qed.

(** The synchronous part of [handleNotificationChange], case by case. *)
Lemma exec_handleNotificationChange (e : Env) (f : NotificationFrequency)
    (w : World) :
  exec e (handleNotificationChange f) w
  = if NotificationFrequency_eqb f OFF then Done tt (afterApply f w)
    else if negb (notificationService.supported (platform w)) then
      Done tt
        (logged [Ev isNotificationSupported false;
                 Ev (alert msg_unsupported) tt] w)
    else if String.eqb (notificationService.permission (platform w)) "granted"
    then Done tt (afterApply f (afterQueries w))
    else
      Suspended requestNotificationPermission
        (fun granted : bool =>
           perm' <- call getNotificationPermission ;;
           call (setNotificationPerm perm') ;;
           if negb granted then call (alert msg_denied)
           else applyNotificationFreq f)
        (afterQueries w).
Proof.
  unfold handleNotificationChange.
  destruct (NotificationFrequency_eqb f OFF) eqn:Hoff; cbn [negb].
  - apply exec_applyNotificationFreq.
  - destruct w as [v s [sup perm] l].
    destruct sup; cbn -[applyNotificationFreq String.eqb].
    + destruct (String.eqb perm "granted") eqn:Hperm;
        cbn -[applyNotificationFreq String.eqb].
      * rewrite exec_applyNotificationFreq.
        unfold afterQueries, record, logged. cbn. now rewrite <- !app_assoc.
      * unfold afterQueries, record, logged. cbn. now rewrite <- !app_assoc.
    + unfold record, logged. cbn. now rewrite <- !app_assoc.
Qed.

(** The rest of [handleNotificationChange] after the prompt has closed
    (lines 84-93). *)
Lemma resolvePermission_handleNotificationChange (e e2 : Env)
    (f : NotificationFrequency) (w w2 : World) (granted : bool) :
  NotificationFrequency_eqb f OFF = false ->
  notificationService.supported (platform w) = true ->
  String.eqb (notificationService.permission (platform w)) "granted" = false ->
  resolvePermission e2 granted w2 (exec e (handleNotificationChange f) w)
  = Some (Done tt
            (if granted then afterApply f (afterPrompt true w2)
             else logged [Ev (alert msg_denied) tt] (afterPrompt false w2))).
Proof.
  intros Hoff Hsup Hperm.
  rewrite exec_handleNotificationChange, Hoff, Hsup, Hperm.
  cbn [negb resolvePermission resume]. f_equal.
  destruct granted; cbn -[applyNotificationFreq].
  - rewrite exec_applyNotificationFreq. f_equal.
    unfold afterPrompt, record, logged, onView. cbn. now rewrite <- !app_assoc.
  - f_equal.
    unfold afterPrompt, record, logged, onView. cbn. now rewrite <- !app_assoc.
Qed.

Lemma NotificationFrequency_eqb_OFF (f : NotificationFrequency) :
  f <> OFF -> NotificationFrequency_eqb f OFF = false.
Proof. destruct f; [congruence | reflexivity ..]. Qed.

(** C3.  A change of the notification frequency to a value other than off:
    - on a platform without notification support it ends at once with the
      alert [msg_unsupported]; the view (so its [notificationFreq]) and the
      store (so the profile) are as before;
    - with permission already granted it is applied without a prompt;
    - otherwise the handler asks for permission and waits; up to then the
      view and the store are as before.  When the prompt closes without
      permission, the handler ends with the alert [msg_denied]; the view's
      [notificationFreq] and the store are those of the moment the prompt
      closed (only the state variable [notificationPerm] is refreshed).
      When it closes with permission, the frequency is set in the view and
      written to the profile. *)
Theorem notification_change_requires_permission
    (e : Env) (w : World) (freq : NotificationFrequency) :
  freq <> OFF ->
  let o := exec e (handleNotificationChange freq) w in
  if negb (notificationService.isNotificationSupported (platform w)) then
    o = Done tt
          (logged [Ev isNotificationSupported false;
                   Ev (alert msg_unsupported) tt] w) /\
    view (worldOf o) = view w /\
    store (worldOf o) = store w
  else if String.eqb
            (notificationService.getNotificationPermission (platform w))
            "granted"
  then
    o = Done tt (afterApply freq (afterQueries w))
  else
    pendingOn o = Some AwaitPermission /\
    worldOf o = afterQueries w /\
    view (worldOf o) = view w /\
    store (worldOf o) = store w /\
    forall (e2 : Env) (w2 : World),
      let denied := logged [Ev (alert msg_denied) tt] (afterPrompt false w2) in
      let allowed := afterApply freq (afterPrompt true w2) in
      resolvePermission e2 false w2 o = Some (Done tt denied) /\
      notificationFreq (view denied) = notificationFreq (view w2) /\
      store denied = store w2 /\
      view denied
        = set_notificationPerm
            (notificationService.getNotificationPermission (platform w2))
            (view w2) /\
      resolvePermission e2 true w2 o = Some (Done tt allowed) /\
      notificationFreq (view allowed) = freq /\
      notificationFrequency (storageService.getUserProfile (store allowed))
        = Some freq.
Proof.
  intros Hoff. apply NotificationFrequency_eqb_OFF in Hoff. cbv zeta.
  unfold notificationService.isNotificationSupported,
    notificationService.getNotificationPermission.
  destruct (notificationService.supported (platform w)) eqn:Hsup; cbn [negb].
  - destruct (String.eqb (notificationService.permission (platform w)) "granted")
      eqn:Hperm.
    + rewrite exec_handleNotificationChange, Hoff, Hsup, Hperm. reflexivity.
    + split; [| split; [| split; [| split]]].
      1-4: rewrite exec_handleNotificationChange, Hoff, Hsup, Hperm; reflexivity.
      intros e2 w2.
      rewrite !resolvePermission_handleNotificationChange by assumption.
      repeat split; reflexivity.
  - rewrite exec_handleNotificationChange, Hoff, Hsup. cbn [negb].
    repeat split; reflexivity.
Qed.

(** C10.  Setting the frequency to off runs to its end on every platform,
    whatever its support and permission: the handler makes exactly three
    calls, none of them to the notification service (no support query, no
    permission query, no permission request), sets the view's frequency to
    off and writes off into the profile. *)
Theorem notification_off_needs_no_permission (e : Env) (w : World) :
  let o := exec e (handleNotificationChange OFF) w in
  let p := storageService.getUserProfile (store w) in
  let calls := [Ev (setNotificationFreq OFF) tt;
                Ev getUserProfile p;
                Ev (saveUserProfile (with_notificationFrequency p OFF)) tt] in
  pendingOn o = None /\
  log (worldOf o) = log w ++ calls /\
  existsb isNotificationCall calls = false /\
  notificationFreq (view (worldOf o)) = OFF /\
  storageService.getUserProfile (store (worldOf o))
    = with_notificationFrequency p OFF /\
  notificationFrequency (storageService.getUserProfile (store (worldOf o)))
    = Some OFF.
Proof.
  cbv zeta. rewrite exec_handleNotificationChange. cbn.
  repeat split; reflexivity.
Qed.

(** C4.  Each profile edit leaves in the store the profile it found there
    with the one edited field overlaid, and the topic ids as they were:
    - the persona edit hands the new persona to the store's [setPersona];
    - the city edit reads the profile with [getUserProfile] and writes the
      overlaid profile back with [saveUserProfile], these being its last two
      calls;
    - the frequency edit does the same whenever it goes through (at once when
      the guard passes, or after the prompt was answered with permission, on
      the profile of that moment) and leaves the store alone otherwise.
    An overlay changes one field and keeps the other three. *)
Theorem profile_edits_read_modify_write (e : Env) (w : World) :
  (forall v : string,
     let o := exec e (handlePersonaChange v) w in
     pendingOn o = None /\
     store (worldOf o) = rmwStore (overlayPersona v) (store w) /\
     log (worldOf o)
       = log w ++ [Ev (setCurrentPersona v) tt; Ev (setPersona v) tt]) /\
  (forall c : string,
     let o := exec e (handleCityChange c) w in
     pendingOn o = None /\
     store (worldOf o) = rmwStore (overlayCity c) (store w) /\
     log (worldOf o)
       = log w ++ Ev (setCity c) tt
                  :: rmwTrace (overlayCity c)
                       (storageService.getUserProfile (store w))) /\
  (forall f : NotificationFrequency,
     let o := exec e (handleNotificationChange f) w in
     (if passesGuard f (platform w) then
        pendingOn o = None /\
        store (worldOf o) = rmwStore (overlayFrequency f) (store w) /\
        endsWith (log (worldOf o))
          (rmwTrace (overlayFrequency f)
             (storageService.getUserProfile (store w)))
      else store (worldOf o) = store w) /\
     forall (e2 : Env) (w2 : World) (granted : bool) (o2 : Outcome unit),
       resolvePermission e2 granted w2 o = Some o2 ->
       pendingOn o2 = None /\
       if granted then
         store (worldOf o2) = rmwStore (overlayFrequency f) (store w2) /\
         endsWith (log (worldOf o2))
           (rmwTrace (overlayFrequency f)
              (storageService.getUserProfile (store w2)))
       else store (worldOf o2) = store w2) /\
  (forall (p : UserProfile) (x : PersonaType) (c : string)
          (f : NotificationFrequency),
     overlayPersona x p
       = mkProfile x (city p) (theme p) (notificationFrequency p) /\
     overlayCity c p
       = mkProfile (selectedPersona p) (Some c) (theme p)
           (notificationFrequency p) /\
     overlayFrequency f p
       = mkProfile (selectedPersona p) (city p) (theme p) (Some f)).
Proof.
  split; [| split; [| split]].
  - intros v. cbv zeta. rewrite exec_handlePersonaChange.
    repeat split; reflexivity.
  - intros c. cbv zeta. rewrite exec_handleCityChange.
    repeat split; reflexivity.
  - intros f. cbv zeta. rewrite exec_handleNotificationChange.
    unfold passesGuard, notificationService.isNotificationSupported,
      notificationService.getNotificationPermission.
    destruct (NotificationFrequency_eqb f OFF) eqn:Hoff; cbn [orb].
    + split.
      * split; [reflexivity | split; [reflexivity |]].
        exists (log w ++ [Ev (setNotificationFreq f) tt]).
        cbn. now rewrite <- app_assoc.
      * intros e2 w2 granted o2 H. discriminate H.
    + destruct (notificationService.supported (platform w)) eqn:Hsup;
        cbn [negb andb].
      * destruct (String.eqb (notificationService.permission (platform w))
                    "granted") eqn:Hperm.
        -- split.
           ++ split; [reflexivity | split; [reflexivity |]].
              exists (log (afterQueries w) ++ [Ev (setNotificationFreq f) tt]).
              cbn. now rewrite <- !app_assoc.
           ++ intros e2 w2 granted o2 H. discriminate H.
        -- split; [reflexivity |].
           intros e2 w2 granted o2 H.
           cbn [resolvePermission resume] in H.
           injection H as <-.
           destruct granted; cbn -[applyNotificationFreq].
           ++ rewrite exec_applyNotificationFreq.
              split; [reflexivity | split; [reflexivity |]].
              eexists. cbn.
              match goal with
              | |- ?pre ++ ?a :: ?rest = _ =>
                  change (pre ++ a :: rest) with (pre ++ [a] ++ rest);
                  rewrite app_assoc
              end.
              reflexivity.
           ++ split; reflexivity.
      * split; [reflexivity |].
        intros e2 w2 granted o2 H. discriminate H.
  - intros p x c f. repeat split; reflexivity.
Qed.

(** C5.  Editing the city runs to its end and changes only the city of the
    stored profile: the profile written back has the persona, the theme and
    the notification frequency of the profile that was read, and the new
    city; the selected topics in the store are untouched.  The handler's
    calls are [setCity], the read and the write. *)
Theorem city_edit_changes_only_city (e : Env) (w : World) (newCity : string) :
  let o := exec e (handleCityChange newCity) w in
  let read := storageService.getUserProfile (store w) in
  let written := storageService.getUserProfile (store (worldOf o)) in
  pendingOn o = None /\
  log (worldOf o)
    = log w ++ [Ev (setCity newCity) tt;
                Ev getUserProfile read;
                Ev (saveUserProfile written) tt] /\
  selectedPersona written = selectedPersona read /\
  theme written = theme read /\
  notificationFrequency written = notificationFrequency read /\
  city written = Some newCity /\
  storageService.getSelectedTopicIds (store (worldOf o))
    = storageService.getSelectedTopicIds (store w) /\
  viewCity (view (worldOf o)) = newCity.
Proof.
  cbv zeta. rewrite exec_handleCityChange. repeat split; reflexivity.
Qed.

(** C6.  The hard reset asks for confirmation first.  Declined, it ends with
    the dialog as its only call: the wipe routine is not called, and view and
    store are as before.  Confirmed, it calls the store's wipe routine, after
    which the store is in its initial default state (profile and topic ids
    are those of that state). *)
Theorem hard_reset_requires_confirmation (e : Env) (w : World) :
  let o := exec e handleHardReset w in
  pendingOn o = None /\
  if confirmAnswer e then
    log (worldOf o)
      = log w ++ [Ev (confirm msg_reset) true; Ev hardResetApp tt] /\
    store (worldOf o) = initialStore /\
    storageService.getUserProfile (store (worldOf o))
      = storageService.getUserProfile initialStore /\
    storageService.getSelectedTopicIds (store (worldOf o))
      = storageService.getSelectedTopicIds initialStore
  else
    log (worldOf o) = log w ++ [Ev (confirm msg_reset) false] /\
    existsb isWipe [Ev (confirm msg_reset) false] = false /\
    view (worldOf o) = view w /\
    store (worldOf o) = store w.
Proof.
  cbv zeta. cbn. destruct (confirmAnswer e); cbn.
  - rewrite <- app_assoc. repeat split; reflexivity.
  - repeat split; reflexivity.
Qed.

(** ** Export and import *)

Lemma resolveRead_handleFileChange (e e2 : Env) (f : File) (w w2 : World) :
  resolveRead e2 w2 (exec e (handleFileChange (Some f)) w)
  = Some (Done tt (afterRead f w2)).
Proof.
  cbn [handleFileChange exec]. cbn. unfold resume, afterRead. f_equal.
  destruct (String.eqb (fileText f) "") eqn:Hempty; cbn.
  - reflexivity.
  - destruct (fst (storageService.importUserData (fileText f) (store w2)));
      cbn; unfold record, logged, withStore; cbn;
      now rewrite <- !app_assoc.
Qed.

(** A failed import leaves the store as it was. *)
Lemma importUserData_failure (text : string) (s : Store) :
  fst (storageService.importUserData text s) = false ->
  snd (storageService.importUserData text s) = s.
Proof.
  unfold storageService.importUserData.
  destruct (storageService.readStore text); [discriminate | reflexivity].
Qed.

(** C7 (as amended).  With no file picked the handler ends at once.  With a
    file it waits for the reader.  When the reader delivers the text: an empty
    text is dropped without calling the import routine; a non-empty text is
    handed to [importUserData].  If that reports success, the handler shows
    the alert [msg_restored] and reloads the page.  If it reports failure, the
    handler ends there: no alert, no reload, view and store as they were. *)
Theorem import_reads_file_and_reloads_on_success
    (e e2 : Env) (w w2 : World) (f : File) :
  let o := exec e (handleFileChange (Some f)) w in
  let text := fileText f in
  let r := storageService.importUserData text (store w2) in
  exec e (handleFileChange None) w = Done tt w /\
  pendingOn o = Some (AwaitRead f) /\
  worldOf o = w /\
  resolveRead e2 w2 o = Some (Done tt (afterRead f w2)) /\
  view (afterRead f w2) = view w2 /\
  if String.eqb text "" then
    afterRead f w2 = logged [Ev (readAsText f) text] w2
  else if fst r then
    log (afterRead f w2)
      = log w2 ++ [Ev (readAsText f) text; Ev (importUserData text) true;
                   Ev (alert msg_restored) tt; Ev reload tt] /\
    store (afterRead f w2) = snd r
  else
    afterRead f w2
      = logged [Ev (readAsText f) text; Ev (importUserData text) false] w2 /\
    existsb isVisible
      [Ev (readAsText f) text; Ev (importUserData text) false] = false /\
    store (afterRead f w2) = store w2.
Proof.
  cbv zeta. rewrite resolveRead_handleFileChange.
  split; [reflexivity |]. split; [reflexivity |]. split; [reflexivity |].
  split; [reflexivity |].
  unfold afterRead.
  destruct (String.eqb (fileText f) "") eqn:Hempty; [split; reflexivity |].
  destruct (fst (storageService.importUserData (fileText f) (store w2)))
    eqn:Hok.
  - repeat split; reflexivity.
  - pose proof (importUserData_failure _ _ Hok) as Hsame.
    cbn. rewrite Hsame. destruct w2. repeat split; reflexivity.
Qed.

(** C8.  Export hands the store's text to the download, under the name
    [ai_digest_backup_<date>.json].  When that file is later picked for
    import, in whatever state view and store then are, the text is handed to
    the import routine, which reports success; the handler alerts and
    reloads, and the store is the one that was exported: same profile, same
    topic ids.  The page that mounts after the reload shows that selection
    and that profile. *)
Theorem export_then_import_restores
    (e e2 e3 : Env) (w w2 w3 : World) :
  let text := storageService.exportUserData (store w) in
  let backup := mkFile text in
  let picked := exec e2 (handleFileChange (Some backup)) w2 in
  let final := afterRead backup w3 in
  let shown := view (worldOf (remount e3 final)) in
  let p := storageService.getUserProfile (store w) in
  exec e handleExportData w
    = Done tt
        (logged [Ev exportUserData text;
                 Ev isoDate (today e);
                 Ev (download ("ai_digest_backup_" ++ today e ++ ".json")
                       "application/json" text) tt] w) /\
  pendingOn picked = Some (AwaitRead backup) /\
  resolveRead e3 w3 picked = Some (Done tt final) /\
  log final
    = log w3 ++ [Ev (readAsText backup) text; Ev (importUserData text) true;
                 Ev (alert msg_restored) tt; Ev reload tt] /\
  store final = store w /\
  storageService.getUserProfile (store final) = p /\
  storageService.getSelectedTopicIds (store final)
    = storageService.getSelectedTopicIds (store w) /\
  pendingOn (remount e3 final) = None /\
  selectedIds shown = storageService.getSelectedTopicIds (store w) /\
  currentPersona shown = selectedPersona p /\
  viewCity shown = or_string (city p) "" /\
  viewTheme shown = theme p /\
  notificationFreq shown = or_frequency (notificationFrequency p) DAILY.
Proof.
  cbv zeta. rewrite resolveRead_handleFileChange.
  assert (Hfinal :
    afterRead (mkFile (storageService.exportUserData (store w))) w3
    = logged [Ev (readAsText (mkFile (storageService.exportUserData (store w))))
                (storageService.exportUserData (store w));
              Ev (importUserData (storageService.exportUserData (store w))) true;
              Ev (alert msg_restored) tt; Ev reload tt]
        (withStore (store w) w3)).
  { unfold afterRead. cbn [fileText].
    rewrite export_nonempty, import_export. reflexivity. }
  rewrite Hfinal.
  split.
  { cbn. unfold record, logged. cbn. now rewrite <- !app_assoc. }
  repeat split; reflexivity.
Qed.

(** ** At most one selected topic *)

Lemma perform_keeps (X : Type) (c : Call X) (e : Env) (w w' : World) (x : X) :
  callKeeps c -> selInv w ->
  perform e c w = Some (x, w') ->
  selInv w' /\ answerKeeps c x.
Proof.
  intros Hc [Hview Hstore] Hrun.
  destruct c; cbn in Hc, Hrun; try discriminate Hrun; try contradiction;
    injection Hrun as <- <-; unfold selInv; cbn; auto.
Qed.

(** A handler whose calls keep the invariant keeps it up to its end or to
    the point where it waits, and so does what is left of it. *)
Lemma exec_keeps (A : Type) (p : Prog A) :
  Keeps p ->
  forall (e : Env) (w : World),
    selInv w ->
    selInv (worldOf (exec e p w)) /\
    match exec e p w with
    | Done _ _ => True
    | Suspended c k _ => forall x, answerKeeps c x -> Keeps (k x)
    end.
Proof.
  induction 1 as [a | X c k Hc Hk IH]; intros e w Hw.
  - cbn. auto.
  - cbn [exec].
    destruct (perform e c w) as [[x w']|] eqn:Hrun.
    + destruct (@perform_keeps X c e w w' x Hc Hw Hrun) as [Hw' Hx].
      apply IH; [exact Hx | exact Hw'].
    + cbn. auto.
Qed.

Lemma Keeps_mountEffect : Keeps mountEffect.
Proof. unfold mountEffect. keeps. Qed.

Lemma Keeps_handleToggleTheme (props : Props) : Keeps (handleToggleTheme props).
Proof. unfold handleToggleTheme. keeps. Qed.

Lemma Keeps_toggleTopic (id : string) : Keeps (toggleTopic id).
Proof. unfold toggleTopic. keeps. Qed.

Lemma Keeps_handlePersonaChange (v : string) : Keeps (handlePersonaChange v).
Proof. unfold handlePersonaChange. keeps. Qed.

Lemma Keeps_handleCityChange (v : string) : Keeps (handleCityChange v).
Proof. unfold handleCityChange. keeps. Qed.

Lemma Keeps_handleNotificationChange (f : NotificationFrequency) :
  Keeps (handleNotificationChange f).
Proof. unfold handleNotificationChange, applyNotificationFreq. keeps. Qed.

Lemma settle_keeps (o : Outcome unit) (ts : list (Outcome unit)) :
  selInv (worldOf o) -> taskKeeps o -> Forall taskKeeps ts ->
  sysInv (settle o ts).
Proof.
  intros Hw Ho Hts. destruct o as [a w | X c k w]; split; cbn; auto.
  apply Forall_app. split; [exact Hts | constructor; [exact Ho | constructor]].
Qed.

Lemma fire_keeps (e : Env) (p : Prog unit) (s : Sys) :
  Keeps p -> sysInv s -> sysInv (fire e p s).
Proof.
  intros Hp [Hw Hts]. unfold fire.
  destruct (@exec_keeps unit p Hp e (world s) Hw) as [Hw' Hrest].
  apply settle_keeps; [exact Hw' | | exact Hts].
  destruct (exec e p (world s)); [exact I | exact Hrest].
Qed.

Lemma dropNth_Forall (A : Type) (P : A -> Prop) (l : list A) :
  forall i, Forall P l -> Forall P (dropNth i l).
Proof.
  induction l as [|x l IH]; intros i Hl; [destruct i; constructor |].
  inversion Hl as [|? ? Hx Hrest]; subst.
  destruct i; cbn; [exact Hrest | constructor; auto].
Qed.

Lemma resolvePermission_keeps (e : Env) (granted : bool) (w : World)
    (o o' : Outcome unit) :
  selInv w -> taskKeeps o ->
  resolvePermission e granted w o = Some o' ->
  selInv (worldOf o') /\ taskKeeps o'.
Proof.
  intros Hw Ho Hres.
  destruct o as [a w0 | X c k w0]; [discriminate Hres |].
  cbn in Ho, Hres.
  destruct c; try discriminate Hres.
  injection Hres as <-. unfold resume.
  assert (Hk : Keeps (k granted)) by (apply Ho; exact I).
  destruct (@exec_keeps unit (k granted) Hk e
              (record (Ev requestNotificationPermission granted) w) Hw)
    as [Hw' Hrest].
  split; [exact Hw' |].
  destruct (exec e (k granted) _); [exact I | exact Hrest].
Qed.

Lemma step_keeps (e : Env) (a : Action) (s : Sys) :
  sysInv s -> sysInv (step e a s).
Proof.
  intros Hs. destruct a; cbn [step].
  - apply fire_keeps; [apply Keeps_mountEffect |].
    destruct Hs as [[_ Hstore] _]. split; [split |]; cbn; auto.
  - apply fire_keeps; [apply Keeps_handleToggleTheme | exact Hs].
  - apply fire_keeps; [apply Keeps_toggleTopic | exact Hs].
  - apply fire_keeps; [apply Keeps_handlePersonaChange | exact Hs].
  - apply fire_keeps; [apply Keeps_handleCityChange | exact Hs].
  - apply fire_keeps; [apply Keeps_handleNotificationChange | exact Hs].
  - destruct (nth_error (tasks s) i) as [o|] eqn:Hnth; [| exact Hs].
    destruct (resolvePermission e granted (withPlatform after (world s)) o)
      as [o'|] eqn:Hres; [| exact Hs].
    destruct Hs as [Hw Hts].
    assert (Ho : taskKeeps o).
    { apply nth_error_In in Hnth. rewrite Forall_forall in Hts. auto. }
    destruct (@resolvePermission_keeps e granted
                (withPlatform after (world s)) o o' Hw Ho Hres)
      as [Hw' Ho'].
    apply settle_keeps; [exact Hw' | exact Ho' |].
    apply dropNth_Forall. exact Hts.
  - destruct Hs as [Hw Hts]. split; [exact Hw | exact Hts].
Qed.

Lemma run_keeps (acts : list (Env * Action)) :
  forall s, sysInv s -> sysInv (run acts s).
Proof.
  induction acts as [|[e a] acts IH]; intros s Hs; [exact Hs |].
  cbn [run]. apply IH. apply step_keeps. exact Hs.
Qed.

(** The mount effect shows whatever selection the store holds. *)
Lemma remount_shows_store_selection (e : Env) (w : World) :
  selectedIds (view (worldOf (remount e w)))
  = storageService.getSelectedTopicIds (store w).
Proof. reflexivity. Qed.

(** C2.  Start from the empty selection (nothing selected in the view, no
    topic id in the store; any profile, any platform) and let any sequence of
    events run: mounts, theme toggles, topic selections, persona, city and
    frequency edits, permission prompts closing in any order with any answer
    while other events run in between, and changes of the platform's
    notification state.  The selection then holds at most one id, in the view
    and in the store. *)
Theorem selection_never_exceeds_one
    (p0 : UserProfile) (plat : Platform) (acts : list (Env * Action)) :
  let s := run acts (initialSys p0 plat) in
  length (selectedIds (view (world s))) <= 1 /\
  length (storageService.getSelectedTopicIds (store (world s))) <= 1.
Proof.
  cbv zeta.
  assert (Hinit : sysInv (initialSys p0 plat)).
  { split; [split; cbn; auto | constructor]. }
  destruct (run_keeps acts Hinit) as [Hw _]. exact Hw.
Qed.

(** ** Expanding and collapsing categories *)

Lemma includes_In (l : list string) (x : string) :
  includes l x = true <-> In x l.
Proof.
  unfold includes. rewrite existsb_exists. split.
  - intros [y [Hy Heq]]. apply String.eqb_eq in Heq. now subst.
  - intros Hx. exists x. split; [exact Hx | apply String.eqb_refl].
Qed.

Lemma In_without (l : list string) (c x : string) :
  In x (filter (fun y => negb (String.eqb y c)) l) <-> In x l /\ x <> c.
Proof.
  rewrite filter_In. split; intros [Hin Hne]; split; try exact Hin.
  - intros ->. now rewrite String.eqb_refl in Hne.
  - apply String.eqb_neq in Hne. now rewrite Hne.
Qed.


(** The list of expanded categories after a click on [c]. *)
Lemma clickCategory_expanded (e : Env) (c : string) (w : World) :
  expandedCategories (view (clickCategory e c w))
  = if includes (expandedCategories (view w)) c
    then filter (fun y => negb (String.eqb y c)) (expandedCategories (view w))
    else expandedCategories (view w) ++ [c].
Proof.
  unfold clickCategory, toggleCategory, includes.
  destruct (existsb (String.eqb c) (expandedCategories (view w))); reflexivity.
Qed.

(** X1.  A click on a category header flips that category and no other: the
    category is expanded afterwards exactly when it was collapsed before,
    every other category is expanded exactly when it was before, and the
    selection and the store are untouched. *)
Theorem toggleCategory_flips_one (e : Env) (w : World) (c : string) :
  let before := expandedCategories (view w) in
  let after := expandedCategories (view (clickCategory e c w)) in
  (In c after <-> ~ In c before) /\
  (forall x, x <> c -> (In x after <-> In x before)) /\
  selectedIds (view (clickCategory e c w)) = selectedIds (view w) /\
  store (clickCategory e c w) = store w.
Proof.
  cbv zeta. rewrite clickCategory_expanded.
  destruct (includes (expandedCategories (view w)) c) eqn:Hc.
  - apply includes_In in Hc.
    split; [| split; [| split]].
    + rewrite In_without. split; [intros [_ H]; now elim H | intros H; now elim H].
    + intros x Hx. rewrite In_without. tauto.
    + unfold clickCategory, toggleCategory.
      destruct (existsb _ _); reflexivity.
    + unfold clickCategory, toggleCategory.
      destruct (existsb _ _); reflexivity.
  - assert (Hout : ~ In c (expandedCategories (view w))).
    { intros H. apply includes_In in H. congruence. }
    split; [| split; [| split]].
    + rewrite in_app_iff. cbn. tauto.
    + intros x Hx. rewrite in_app_iff. cbn. split; [| tauto].
      intros [H | [H | []]]; [exact H | now elim Hx].
    + unfold clickCategory, toggleCategory.
      destruct (existsb _ _); reflexivity.
    + unfold clickCategory, toggleCategory.
      destruct (existsb _ _); reflexivity.
Qed.

Lemma clickCategory_NoDup (e : Env) (c : string) (w : World) :
  NoDup (expandedCategories (view w)) ->
  NoDup (expandedCategories (view (clickCategory e c w))).
Proof.
  intros Hnd. rewrite clickCategory_expanded.
  destruct (includes (expandedCategories (view w)) c) eqn:Hc.
  - apply NoDup_filter. exact Hnd.
  - apply NoDup_app; [exact Hnd | repeat constructor; intros [] |].
    intros x Hx [<- | []]. apply includes_In in Hx. congruence.
Qed.

Lemma clickCategories_NoDup (e : Env) (cs : list string) :
  forall w, NoDup (expandedCategories (view w)) ->
            NoDup (expandedCategories (view (clickCategories e cs w))).
Proof.
  induction cs as [|c cs IH]; intros w Hnd; [exact Hnd |].
  cbn [clickCategories]. apply IH. now apply clickCategory_NoDup.
Qed.

(** X2.  After the mount, whatever headers are clicked and in whatever order,
    no category is listed twice among the expanded ones. *)
Theorem expanded_categories_stay_distinct
    (e0 e : Env) (w : World) (cs : list string) :
  NoDup (expandedCategories
           (view (clickCategories e cs (worldOf (remount e0 w))))).
Proof.
  apply clickCategories_NoDup. cbn. constructor.
Qed.


(** ** Grouping the catalogue by category *)

Lemma lookupGroup_None (c : string) (acc : Groups) :
  lookupGroup c acc = None <-> ~ In c (map fst acc).
Proof.
  induction acc as [|[k ts] acc IH]; cbn; [tauto |].
  destruct (String.eqb_spec k c) as [-> | Hne].
  - split; [discriminate | intros H; elim H; now left].
  - rewrite IH. tauto.
Qed.

Lemma lookupGroup_In (c : string) (ts : list Topic) (acc : Groups) :
  NoDup (map fst acc) ->
  (lookupGroup c acc = Some ts <-> In (c, ts) acc).
Proof.
  induction acc as [|[k us] acc IH]; cbn; intros Hnd.
  - split; [discriminate | tauto].
  - inversion Hnd as [|? ? Hk Hrest]; subst.
    destruct (String.eqb_spec k c) as [-> | Hne].
    + split.
      * intros H. injection H as ->. now left.
      * intros [H | H]; [now injection H as -> |].
        elim Hk. change c with (fst (c, ts)). now apply in_map.
    + rewrite (IH Hrest). split; [tauto |].
      intros [H | H]; [injection H as -> _; now elim Hne | exact H].
Qed.

Lemma pushTo_keys (c : string) (t : Topic) (acc : Groups) :
  map fst (pushTo c t acc) = map fst acc.
Proof.
  induction acc as [|[k ts] acc IH]; [reflexivity |].
  cbn. destruct (String.eqb k c); cbn; [reflexivity | now rewrite IH].
Qed.

Lemma lookupGroup_pushTo (c k : string) (t : Topic) (acc : Groups) :
  lookupGroup c (pushTo k t acc)
  = if String.eqb k c
    then option_map (fun ts => ts ++ [t]) (lookupGroup c acc)
    else lookupGroup c acc.
Proof.
  induction acc as [|[j ts] acc IH]; cbn.
  - now destruct (String.eqb k c).
  - destruct (String.eqb_spec j k) as [-> | Hjk]; cbn.
    + destruct (String.eqb_spec k c) as [-> | Hkc]; reflexivity.
    + destruct (String.eqb_spec j c) as [-> | Hjc].
      * destruct (String.eqb_spec k c) as [-> | Hkc]; [now elim Hjk | reflexivity].
      * exact IH.
Qed.

Lemma lookupGroup_new (c k : string) (acc : Groups) :
  lookupGroup c (acc ++ [(k, [])])
  = match lookupGroup c acc with
    | Some ts => Some ts
    | None => if String.eqb k c then Some [] else None
    end.
Proof.
  induction acc as [|[j ts] acc IH]; cbn; [reflexivity |].
  destruct (String.eqb j c); [reflexivity | exact IH].
Qed.

(** One round of the reducer, seen from the key [c]. *)
Lemma lookupGroup_groupStep (c : string) (acc acc' : Groups) (t : Topic) :
  groupStep acc t = Some acc' ->
  lookupGroup c acc'
  = if String.eqb (topicCategory t) c
    then Some (match lookupGroup c acc with Some ts => ts | None => [] end
               ++ [t])
    else lookupGroup c acc.
Proof.
  unfold groupStep. destruct (inherited (topicCategory t)); [discriminate |].
  intros H. injection H as <-. rewrite lookupGroup_pushTo.
  destruct (String.eqb_spec (topicCategory t) c) as [<- | Hne].
  - destruct (lookupGroup (topicCategory t) acc) as [ts|] eqn:Hfind.
    + now rewrite Hfind.
    + rewrite lookupGroup_new, Hfind, String.eqb_refl. reflexivity.
  - destruct (lookupGroup (topicCategory t) acc); [reflexivity |].
    rewrite lookupGroup_new.
    destruct (lookupGroup c acc); [reflexivity |].
    apply String.eqb_neq in Hne. now rewrite Hne.
Qed.

Lemma groupStep_keys (acc acc' : Groups) (t : Topic) :
  groupStep acc t = Some acc' ->
  NoDup (map fst acc) -> NoDup (map fst acc').
Proof.
  unfold groupStep. destruct (inherited (topicCategory t)); [discriminate |].
  intros H Hnd. injection H as <-. rewrite pushTo_keys.
  destruct (lookupGroup (topicCategory t) acc) eqn:Hfind; [exact Hnd |].
  rewrite map_app. cbn. apply NoDup_app; [exact Hnd | repeat constructor; intros [] |].
  intros x Hx [<- | []]. now apply lookupGroup_None in Hfind.
Qed.

Lemma pushTo_topics (c : string) (t : Topic) (acc : Groups) :
  In c (map fst acc) ->
  Permutation (concat (map snd (pushTo c t acc)))
              (t :: concat (map snd acc)).
Proof.
  induction acc as [|[k ts] acc IH]; cbn; [tauto |].
  destruct (String.eqb_spec k c) as [-> | Hne]; cbn.
  - intros _. rewrite <- app_assoc. cbn.
    symmetry. apply Permutation_middle.
  - intros [H | H]; [now elim Hne |].
    rewrite (IH H). symmetry. apply Permutation_middle.
Qed.

Lemma groupStep_topics (acc acc' : Groups) (t : Topic) :
  groupStep acc t = Some acc' ->
  Permutation (concat (map snd acc')) (t :: concat (map snd acc)).
Proof.
  unfold groupStep. destruct (inherited (topicCategory t)); [discriminate |].
  intros H. injection H as <-.
  destruct (lookupGroup (topicCategory t) acc) eqn:Hfind.
  - apply pushTo_topics.
    destruct (in_dec string_dec (topicCategory t) (map fst acc)) as [Hin | Hout];
      [exact Hin |].
    apply lookupGroup_None in Hout. congruence.
  - rewrite pushTo_topics.
    + rewrite map_app, concat_app. cbn. now rewrite app_nil_r.
    + rewrite map_app, in_app_iff. right. now left.
Qed.

Lemma reduceGroups_lookup (c : string) (topics : list Topic) :
  forall acc g,
    reduceGroups topics acc = Some g ->
    lookupGroup c g
    = match lookupGroup c acc with
      | Some ts => Some (ts ++ ofCategory c topics)
      | None =>
          match ofCategory c topics with
          | [] => None
          | t :: ts => Some (t :: ts)
          end
      end.
Proof.
  induction topics as [|t topics IH]; intros acc g Hrun; cbn in Hrun.
  - injection Hrun as <-. cbn.
    destruct (lookupGroup c acc); [now rewrite app_nil_r | reflexivity].
  - destruct (groupStep acc t) as [acc'|] eqn:Hstep; [| discriminate].
    rewrite (IH _ _ Hrun), (lookupGroup_groupStep c _ _ Hstep).
    unfold ofCategory. cbn [filter].
    destruct (String.eqb (topicCategory t) c).
    + destruct (lookupGroup c acc); [now rewrite <- app_assoc | reflexivity].
    + reflexivity.
Qed.

Lemma reduceGroups_keys (topics : list Topic) :
  forall acc g,
    reduceGroups topics acc = Some g ->
    NoDup (map fst acc) -> NoDup (map fst g).
Proof.
  induction topics as [|t topics IH]; intros acc g Hrun Hnd; cbn in Hrun.
  - now injection Hrun as <-.
  - destruct (groupStep acc t) as [acc'|] eqn:Hstep; [| discriminate].
    apply (IH _ _ Hrun). now apply (groupStep_keys _ _ Hstep).
Qed.

Lemma reduceGroups_topics (topics : list Topic) :
  forall acc g,
    reduceGroups topics acc = Some g ->
    Permutation (concat (map snd g)) (concat (map snd acc) ++ topics).
Proof.
  induction topics as [|t topics IH]; intros acc g Hrun; cbn in Hrun.
  - injection Hrun as <-. now rewrite app_nil_r.
  - destruct (groupStep acc t) as [acc'|] eqn:Hstep; [| discriminate].
    rewrite (IH _ _ Hrun), (groupStep_topics _ _ Hstep). cbn.
    apply Permutation_middle.
Qed.

Lemma reduceGroups_fails (topics : list Topic) :
  forall acc,
    reduceGroups topics acc = None
    <-> Exists (fun t => inherited (topicCategory t) = true) topics.
Proof.
  induction topics as [|t topics IH]; intros acc; cbn [reduceGroups].
  - split; [discriminate | intros H; inversion H].
  - unfold groupStep at 1.
    destruct (inherited (topicCategory t)) eqn:Hbad.
    + split; [intros _; now left | reflexivity].
    + rewrite IH. split; [intros H; now right |].
      intros H. inversion H as [? ? Hhd | ? ? Htl]; subst; [congruence | exact Htl].
Qed.

(** X4.  Grouping the catalogue fails (with the [TypeError] of [push]) exactly
    when some topic's category is a property name that every object inherits,
    such as [constructor] or [toString]; otherwise it yields the groups. *)
Theorem groupedTopics_fails_on_inherited_names (topics : list Topic) :
  groupedTopics topics = None
  <-> Exists (fun t => inherited (topicCategory t) = true) topics.
Proof. apply reduceGroups_fails. Qed.

Lemma reduceGroups_entries (topics : list Topic) (g : Groups) :
  reduceGroups topics [] = Some g ->
  NoDup (map fst g) /\
  forall (c : string) (ts : list Topic),
    In (c, ts) g <-> ts = ofCategory c topics /\ ts <> [].
Proof.
  intros Hrun.
  assert (Hnd : NoDup (map fst g)).
  { apply (reduceGroups_keys _ _ Hrun). constructor. }
  split; [exact Hnd |].
  intros c ts. rewrite <- (@lookupGroup_In c ts g Hnd).
  rewrite (reduceGroups_lookup c _ _ Hrun). cbn.
  destruct (ofCategory c topics) as [|t us].
  - split; [discriminate | intros [-> H]; now elim H].
  - split.
    + intros H. injection H as <-. split; [reflexivity | discriminate].
    + intros [-> _]. reflexivity.
Qed.

(** X5.  The groups list every category of the catalogue once, and under each
    category exactly the catalogue's topics of that category, in the order of
    the catalogue; a category without topics has no entry. *)
Theorem groupedTopics_entries (topics : list Topic) (g : Groups) :
  groupedTopics topics = Some g ->
  NoDup (map fst g) /\
  forall (c : string) (ts : list Topic),
    In (c, ts) g <-> ts = ofCategory c topics /\ ts <> [].
Proof. exact (@reduceGroups_entries topics g). Qed.

(** X6.  Grouping loses no topic and repeats none: the topics under all the
    categories together are the catalogue, rearranged. *)
Theorem groupedTopics_partition (topics : list Topic) (g : Groups) :
  groupedTopics topics = Some g ->
  Permutation (concat (map snd g)) topics.
Proof.
  intros Hrun. apply reduceGroups_topics in Hrun. exact Hrun.
Qed.

(** ** The top picks and the selection on screen *)

Lemma NoDup_map_filter (A B : Type) (f : A -> B) (P : A -> bool) (l : list A) :
  NoDup (map f l) -> NoDup (map f (filter P l)).
Proof.
  induction l as [|x l IH]; cbn; intros Hnd; [constructor |].
  inversion Hnd as [|? ? Hx Hrest]; subst.
  destruct (P x); cbn; [| now apply IH].
  constructor; [| now apply IH].
  intros Hin. apply Hx. apply in_map_iff in Hin.
  destruct Hin as [y [Hy Hin]]. apply filter_In in Hin.
  apply in_map_iff. exists y. tauto.
Qed.

(** X7.  When the ids of the catalogue are distinct, the top picks are at
    most seven; they are the catalogue's topics whose id is one of the seven
    listed, whatever their place in the catalogue. *)
Theorem topTopics_at_most_seven (topics : list Topic) :
  NoDup (map topicId topics) ->
  length (topTopics topics) <= 7 /\
  forall t, In t (topTopics topics)
            <-> In t topics /\ In (topicId t) topTopicIds.
Proof.
  intros Hnd. split.
  - rewrite <- (length_map topicId).
    change 7 with (length topTopicIds).
    apply NoDup_incl_length.
    + apply NoDup_map_filter. exact Hnd.
    + intros i Hi. apply in_map_iff in Hi. destruct Hi as [t [<- Ht]].
      apply filter_In in Ht. apply includes_In. tauto.
  - intros t. unfold topTopics. rewrite filter_In, includes_In. tauto.
Qed.

Lemma filter_swap (A : Type) (P Q : A -> bool) (l : list A) :
  filter P (filter Q l) = filter Q (filter P l).
Proof.
  induction l as [|x l IH]; [reflexivity |].
  cbn. destruct (P x) eqn:HP, (Q x) eqn:HQ; cbn;
    rewrite ?HP, ?HQ, IH; reflexivity.
Qed.

Lemma filter_none (A : Type) (P : A -> bool) (l : list A) :
  (forall y, In y l -> P y = false) -> filter P l = [].
Proof.
  induction l as [|x l IH]; intros Hall; [reflexivity |].
  cbn. rewrite (Hall x (or_introl eq_refl)).
  apply IH. intros y Hy. apply Hall. now right.
Qed.

(** With distinct ids, the topics that carry the id of [t] are [t] alone. *)
Lemma filter_by_id (topics : list Topic) (t : Topic) :
  NoDup (map topicId topics) -> In t topics ->
  filter (fun x => String.eqb (topicId x) (topicId t)) topics = [t].
Proof.
  induction topics as [|x l IH]; cbn; intros Hnd Hin; [tauto |].
  inversion Hnd as [|? ? Hx Hrest]; subst.
  destruct Hin as [-> | Hin].
  - rewrite String.eqb_refl. f_equal.
    apply filter_none. intros y Hy.
    apply String.eqb_neq. intros Heq.
    apply Hx. rewrite <- Heq. now apply in_map.
  - destruct (String.eqb_spec (topicId x) (topicId t)) as [Heq | Hne].
    + elim Hx. rewrite Heq. now apply in_map.
    + now apply IH.
Qed.

(** X8.  Once a topic of the catalogue has been selected (ids distinct), the
    screen marks that topic and no other as selected, and among the category
    headers exactly the one of that topic's category is highlighted, with a
    count of one. *)
Theorem selected_topic_marks_its_category
    (e : Env) (w : World) (topics : list Topic) (g : Groups) (t : Topic) :
  NoDup (map topicId topics) ->
  In t topics ->
  groupedTopics topics = Some g ->
  let v := view (worldOf (exec e (toggleTopic (topicId t)) w)) in
  filter (isSelected v) topics = [t] /\
  forall (c : string) (ts : list Topic),
    In (c, ts) g ->
    selectedCount v ts
      = (if String.eqb (topicCategory t) c then 1 else 0) /\
    highlighted v ts = String.eqb (topicCategory t) c.
Proof.
  intros Hnd Hin Hrun. cbv zeta. rewrite exec_toggleTopic.
  assert (Hsel : forall l,
    filter (isSelected (view (afterToggle (topicId t) w))) l
    = filter (fun x => String.eqb (topicId x) (topicId t)) l).
  { intros l. apply filter_ext. intros x.
    unfold isSelected, includes. cbn. apply orb_false_r. }
  split; [rewrite Hsel; now apply filter_by_id |].
  intros c ts Hentry.
  apply (proj2 (@reduceGroups_entries topics g Hrun)) in Hentry.
  destruct Hentry as [-> _].
  unfold highlighted, selectedCount, ofCategory.
  rewrite Hsel, filter_swap, (@filter_by_id topics t Hnd Hin). cbn.
  destruct (String.eqb (topicCategory t) c); split; reflexivity.
Qed.

(** X9.  In every state the screen reaches from the empty selection, the
    badge tells the truth: it reads [msg_none] with nothing selected and
    [msg_one] with exactly one topic selected, and there is no third case.
    The button that starts the digest is rendered exactly when one topic is
    selected and [onFinish] was passed. *)
Theorem badge_is_truthful
    (p0 : UserProfile) (plat : Platform) (acts : list (Env * Action))
    (props : Props) :
  let v := view (world (run acts (initialSys p0 plat))) in
  ((selectedIds v = [] /\ badge v = msg_none /\ generateShown props v = false)
   \/ (exists i, selectedIds v = [i] /\ badge v = msg_one /\
                 generateShown props v = hasOnFinish props)).
Proof.
  cbv zeta.
  assert (Hinit : sysInv (initialSys p0 plat)).
  { split; [split; cbn; auto | constructor]. }
  destruct (run_keeps acts Hinit) as [[Hview _] _].
  unfold badge, generateShown.
  destruct (selectedIds (view (world (run acts (initialSys p0 plat)))))
    as [|i [|j l]]; cbn in *.
  - left. repeat split; reflexivity.
  - right. exists i. repeat split; reflexivity.
  - lia.
Qed.

(** ** Mount, theme and the overlays *)

(** X10.  The mount effect only reads: it ends without waiting, makes no
    call that writes to the store, and leaves the store as it found it.
    Afterwards the view shows what the store holds: the stored selection, the
    stored persona and theme, the stored city or the empty string when there
    is none, the stored frequency or daily when there is none, and no
    expanded category.  The overlays are as they were. *)
Theorem mountEffect_shows_the_store (e : Env) (w : World) :
  let o := exec e mountEffect w in
  let p := storageService.getUserProfile (store w) in
  let v := view (worldOf o) in
  pendingOn o = None /\
  store (worldOf o) = store w /\
  log (worldOf o)
    = log w ++ [Ev getUserProfile p;
                Ev getSelectedTopicIds
                   (storageService.getSelectedTopicIds (store w));
                Ev (setSelectedIds
                      (storageService.getSelectedTopicIds (store w))) tt;
                Ev (setCurrentPersona (selectedPersona p)) tt;
                Ev (setCity (or_string (city p) "")) tt;
                Ev (setTheme (theme p)) tt;
                Ev (setNotificationFreq
                      (or_frequency (notificationFrequency p) DAILY)) tt;
                Ev (setExpandedCategories []) tt] /\
  selectedIds v = storageService.getSelectedTopicIds (store w) /\
  currentPersona v = selectedPersona p /\
  viewCity v = match city p with
               | Some c => c
               | None => ""
               end /\
  viewTheme v = theme p /\
  notificationFreq v = match notificationFrequency p with
                       | Some f => f
                       | None => DAILY
                       end /\
  expandedCategories v = [] /\
  showProfileModal v = showProfileModal (view w) /\
  showMoreMenu v = showMoreMenu (view w) /\
  legalMode v = legalMode (view w) /\
  notificationPerm v = notificationPerm (view w).
Proof.
  cbv zeta. cbn. rewrite <- !app_assoc. cbn.
  repeat split; try reflexivity.
  destruct (city (storageService.getUserProfile (store w))) as [c|];
    [| reflexivity].
  unfold or_string.
  destruct (String.eqb_spec c "") as [-> | _]; reflexivity.
Qed.

(** X11.  A theme toggle asks the store to toggle, shows the theme the store
    returned, and then calls [onThemeChange] if and only if that prop was
    passed.  The view then shows the stored theme; the selection is untouched
    in the view and in the store. *)
Theorem handleToggleTheme_shows_returned_theme
    (e : Env) (w : World) (props : Props) :
  let o := exec e (handleToggleTheme props) w in
  let t := fst (storageService.toggleTheme (store w)) in
  pendingOn o = None /\
  log (worldOf o)
    = log w ++ [Ev toggleTheme t; Ev (setTheme t) tt]
            ++ (if hasOnThemeChange props then [Ev onThemeChange tt] else []) /\
  viewTheme (view (worldOf o)) = t /\
  viewTheme (view (worldOf o))
    = theme (storageService.getUserProfile (store (worldOf o))) /\
  selectedIds (view (worldOf o)) = selectedIds (view w) /\
  storageService.getSelectedTopicIds (store (worldOf o))
    = storageService.getSelectedTopicIds (store w).
Proof.
  cbv zeta. unfold handleToggleTheme.
  destruct (hasOnThemeChange props); cbn; rewrite <- !app_assoc;
    repeat split; reflexivity.
Qed.

(** X12.  The menu entry that starts the hard reset closes the menu before it
    asks, so the menu is closed afterwards also when the reset is declined.
    It sets no other state variable and does not reload: after a confirmed
    reset the store is in its initial state while the view still shows the
    selection and the profile it showed before. *)
Theorem onClickHardReset_closes_menu_only (e : Env) (w : World) :
  let o := exec e onClickHardReset w in
  pendingOn o = None /\
  view (worldOf o) = set_showMoreMenu false (view w) /\
  showMoreMenu (view (worldOf o)) = false /\
  selectedIds (view (worldOf o)) = selectedIds (view w) /\
  store (worldOf o) = (if confirmAnswer e then initialStore else store w) /\
  log (worldOf o)
    = log w ++ [Ev (setShowMoreMenu false) tt;
                Ev (confirm msg_reset) (confirmAnswer e)]
            ++ (if confirmAnswer e then [Ev hardResetApp tt] else []).
Proof.
  cbv zeta. unfold onClickHardReset, handleHardReset.
  destruct (confirmAnswer e) eqn:Hanswer; cbn; rewrite Hanswer; cbn;
    rewrite <- !app_assoc; repeat split; reflexivity.
Qed.

(** X13.  Opening a legal page from the menu shows that page and closes the
    menu, and leaves the profile modal as it is.  Closing the profile modal
    does not close its menu: when the menu was opened and the modal is closed
    and opened again, the menu is on screen again. *)
Theorem overlays_and_menu (e : Env) (w : World) (m : LegalMode) :
  let legal := view (worldOf (exec e (openLegal m) w)) in
  let w1 := worldOf (exec e openProfile w) in
  let w2 := worldOf (exec e (toggleMoreMenu false) w1) in
  let w3 := worldOf (exec e closeProfile w2) in
  let w4 := worldOf (exec e openProfile w3) in
  legalMode legal = Some m /\
  showMoreMenu legal = false /\
  showProfileModal legal = showProfileModal (view w) /\
  legalMode (view (worldOf (exec e closeLegal (worldOf (exec e (openLegal m) w)))))
    = None /\
  moreMenuShown (view w2) = true /\
  moreMenuShown (view w3) = false /\
  moreMenuShown (view w4) = true.
Proof. cbv zeta. repeat split; reflexivity. Qed.

(** ** Transitions, one by one *)

Lemma resume_afterAwait (e : Env) (f : NotificationFrequency) (granted : bool)
    (w : World) :
  resume e requestNotificationPermission (afterAwait f) granted w
  = Done tt
      (if granted then afterApply f (afterPrompt true w)
       else logged [Ev (alert msg_denied) tt] (afterPrompt false w)).
Proof.
  unfold resume, afterAwait.
  destruct granted; cbn -[applyNotificationFreq].
  - rewrite exec_applyNotificationFreq. f_equal.
    unfold afterPrompt, record, logged, onView. cbn. now rewrite <- !app_assoc.
  - f_equal.
    unfold afterPrompt, record, logged, onView. cbn. now rewrite <- !app_assoc.
Qed.

Lemma settle_world (o : Outcome unit) (ts : list (Outcome unit)) :
  world (settle o ts) = worldOf o.
Proof. destruct o; reflexivity. Qed.

Lemma settle_tasks (o : Outcome unit) (ts : list (Outcome unit)) :
  endsOrParks o -> Forall frequencyTask ts ->
  Forall frequencyTask (tasks (settle o ts)).
Proof.
  intros Ho Hts. destruct o as [a w | X c k w]; cbn; [exact Hts |].
  apply Forall_app. split; [exact Hts | constructor; [exact Ho | constructor]].
Qed.

Lemma endsOrParks_handleNotificationChange (e : Env)
    (f : NotificationFrequency) (w : World) :
  endsOrParks (exec e (handleNotificationChange f) w).
Proof.
  rewrite exec_handleNotificationChange.
  destruct (NotificationFrequency_eqb f OFF); [exact I |].
  destruct (negb _); [exact I |].
  destruct (String.eqb _ _); [exact I |].
  exists f, (afterQueries w). reflexivity.
Qed.

Lemma step_Moved (e : Env) (a : Action) (s : Sys) :
  Forall frequencyTask (tasks s) ->
  Moved (world s) (world (step e a s)) /\
  Forall frequencyTask (tasks (step e a s)).
Proof.
  intros Hts. destruct a; cbn [step]; unfold fire; rewrite ?settle_world.
  - split; [exact (Moved_mount e (world s)) |].
    apply settle_tasks; [exact I | constructor].
  - split; [exact (Moved_theme e props (world s)) |].
    apply settle_tasks; [| exact Hts].
    unfold handleToggleTheme. destruct (hasOnThemeChange props); exact I.
  - split; [exact (Moved_topic e id (world s)) |].
    apply settle_tasks; [| exact Hts]. now rewrite exec_toggleTopic.
  - split; [exact (Moved_persona e value (world s)) |].
    apply settle_tasks; [| exact Hts]. now rewrite exec_handlePersonaChange.
  - split; [exact (Moved_city e value (world s)) |].
    apply settle_tasks; [| exact Hts]. now rewrite exec_handleCityChange.
  - split; [exact (Moved_frequency e freq (world s)) |].
    apply settle_tasks; [| exact Hts].
    apply endsOrParks_handleNotificationChange.
  - destruct (nth_error (tasks s) i) as [o|] eqn:Hnth;
      [| split; [apply Moved_stay | exact Hts]].
    assert (Ho : frequencyTask o).
    { apply nth_error_In in Hnth. rewrite Forall_forall in Hts. auto. }
    destruct Ho as [f [w0 ->]]. cbn [resolvePermission].
    rewrite settle_world.
    split; [exact (Moved_prompt e f granted after (world s)) |].
    apply settle_tasks; [| now apply dropNth_Forall].
    now rewrite resume_afterAwait.
  - split; [apply Moved_platform | exact Hts].
Qed.

(** A property of worlds that every transition keeps holds after any run. *)
Lemma run_invariant (Inv : World -> Prop) :
  (forall w w', Moved w w' -> Inv w -> Inv w') ->
  forall (acts : list (Env * Action)) (s : Sys),
    Forall frequencyTask (tasks s) -> Inv (world s) ->
    Inv (world (run acts s)).
Proof.
  intros Hkeep. induction acts as [|[e a] acts IH]; intros s Hts Hs;
    [exact Hs |].
  cbn [run]. destruct (@step_Moved e a s Hts) as [Hmove Hts'].
  apply IH; [exact Hts' | exact (Hkeep _ _ Hmove Hs)].
Qed.





Lemma Moved_harmless (w w' : World) :
  Moved w w' ->
  existsb harmfulEvent (log w) = false ->
  existsb harmfulEvent (log w') = false.
Proof.
  intros Hmove Hw.
  destruct Hmove as [w | p w | e w | e props w | e id w | e v w | e v w
                     | e f w | e f granted p w].
  - exact Hw.
  - exact Hw.
  - cbn. rewrite <- !app_assoc, existsb_app, Hw. reflexivity.
  - unfold handleToggleTheme.
    destruct (hasOnThemeChange props); cbn;
      rewrite <- !app_assoc, existsb_app, Hw; reflexivity.
  - rewrite exec_toggleTopic. cbn. rewrite existsb_app, Hw. reflexivity.
  - rewrite exec_handlePersonaChange. cbn. rewrite existsb_app, Hw. reflexivity.
  - rewrite exec_handleCityChange. cbn. rewrite existsb_app, Hw. reflexivity.
  - rewrite exec_handleNotificationChange.
    destruct (NotificationFrequency_eqb f OFF);
      [cbn; rewrite existsb_app, Hw; reflexivity |].
    destruct (negb _); [cbn; rewrite existsb_app, Hw; reflexivity |].
    destruct (String.eqb _ _); cbn;
      rewrite ?existsb_app, ?Hw; reflexivity.
  - rewrite resume_afterAwait.
    destruct granted; cbn; rewrite ?existsb_app, ?Hw; reflexivity.
Qed.

(** X15.  Selecting topics, editing the profile, toggling the theme and
    mounting never destroy data: in no run of these transitions does the
    screen call the store's wipe routine or its import routine, or reload the
    page. *)
Theorem edits_never_wipe_import_or_reload
    (p0 : UserProfile) (plat : Platform) (acts : list (Env * Action)) :
  existsb harmfulEvent (log (world (run acts (initialSys p0 plat)))) = false.
Proof.
  apply (@run_invariant
           (fun w => existsb harmfulEvent (log w) = false) Moved_harmless);
    [constructor | reflexivity].
Qed.

(** ** Edits and the permission prompt *)

Lemma resolvePermission_Some (e e2 : Env) (f : NotificationFrequency)
    (w w2 : World) (granted : bool) (o2 : Outcome unit) :
  resolvePermission e2 granted w2 (exec e (handleNotificationChange f) w)
    = Some o2 ->
  o2 = Done tt
         (if granted then afterApply f (afterPrompt true w2)
          else logged [Ev (alert msg_denied) tt] (afterPrompt false w2)).
Proof.
  rewrite exec_handleNotificationChange.
  destruct (NotificationFrequency_eqb f OFF); [discriminate |].
  destruct (negb _); [discriminate |].
  destruct (String.eqb _ _); [discriminate |].
  cbn [resolvePermission]. intros H. injection H as <-.
  apply (resume_afterAwait e2 f granted w2).
Qed.

(** X16.  The theme toggle and the persona, city and frequency edits never
    change the selected topics, neither on screen nor in the store; this
    holds for the frequency edit also for the part that runs after the
    permission prompt has closed, with either answer. *)
Theorem profile_edits_leave_selection
    (e : Env) (w : World) (props : Props) (value : string)
    (f : NotificationFrequency) :
  let sel (x : World) :=
    (selectedIds (view x), storageService.getSelectedTopicIds (store x)) in
  sel (worldOf (exec e (handleToggleTheme props) w)) = sel w /\
  sel (worldOf (exec e (handlePersonaChange value) w)) = sel w /\
  sel (worldOf (exec e (handleCityChange value) w)) = sel w /\
  sel (worldOf (exec e (handleNotificationChange f) w)) = sel w /\
  forall (e2 : Env) (w2 : World) (granted : bool) (o2 : Outcome unit),
    resolvePermission e2 granted w2 (exec e (handleNotificationChange f) w)
      = Some o2 ->
    sel (worldOf o2) = sel w2.
Proof.
  cbv zeta. split; [| split; [| split; [| split]]].
  - unfold handleToggleTheme. destruct (hasOnThemeChange props); reflexivity.
  - now rewrite exec_handlePersonaChange.
  - now rewrite exec_handleCityChange.
  - rewrite exec_handleNotificationChange.
    destruct (NotificationFrequency_eqb f OFF); [reflexivity |].
    destruct (negb _); [reflexivity |].
    destruct (String.eqb _ _); reflexivity.
  - intros e2 w2 granted o2 H. apply resolvePermission_Some in H. subst o2.
    destruct granted; reflexivity.
Qed.

(** X17.  No lost update across the prompt: when the city is edited while a
    frequency change waits for its permission prompt and the prompt is then
    answered with permission, the stored profile has both the new city and
    the new frequency, and so does the view.  The frequency change reads the
    profile only after the prompt has closed. *)
Theorem city_edit_during_prompt_survives
    (e e1 e2 : Env) (w : World) (f : NotificationFrequency) (c : string) :
  f <> OFF ->
  notificationService.isNotificationSupported (platform w) = true ->
  notificationService.getNotificationPermission (platform w) <> "granted" ->
  let o := exec e (handleNotificationChange f) w in
  let w1 := worldOf (exec e1 (handleCityChange c) (worldOf o)) in
  exists w2,
    resolvePermission e2 true w1 o = Some (Done tt w2) /\
    storageService.getUserProfile (store w2)
      = with_notificationFrequency
          (with_city (storageService.getUserProfile (store w)) c) f /\
    viewCity (view w2) = c /\
    notificationFreq (view w2) = f.
Proof.
  intros Hoff Hsup Hperm. cbv zeta.
  apply NotificationFrequency_eqb_OFF in Hoff.
  apply String.eqb_neq in Hperm.
  unfold notificationService.isNotificationSupported in Hsup.
  unfold notificationService.getNotificationPermission in Hperm.
  eexists. split.
  - rewrite resolvePermission_handleNotificationChange by assumption.
    reflexivity.
  - rewrite exec_handleCityChange, exec_handleNotificationChange,
      Hoff, Hsup, Hperm.
    repeat split; reflexivity.
Qed.

(** X18.  A prompt answered late still applies the frequency it was opened
    for: when notifications are switched off while an earlier change to [f]
    waits for its prompt, and the prompt is then answered with permission,
    the view and the stored profile end with [f], not with off. *)
Theorem late_permission_overrides_switch_off
    (e e1 e2 : Env) (w : World) (f : NotificationFrequency) :
  f <> OFF ->
  notificationService.isNotificationSupported (platform w) = true ->
  notificationService.getNotificationPermission (platform w) <> "granted" ->
  let o := exec e (handleNotificationChange f) w in
  let off := exec e1 (handleNotificationChange OFF) (worldOf o) in
  exists w2,
    pendingOn off = None /\
    notificationFrequency
      (storageService.getUserProfile (store (worldOf off))) = Some OFF /\
    resolvePermission e2 true (worldOf off) o = Some (Done tt w2) /\
    notificationFrequency (storageService.getUserProfile (store w2))
      = Some f /\
    notificationFreq (view w2) = f.
Proof.
  intros Hoff Hsup Hperm. cbv zeta.
  apply NotificationFrequency_eqb_OFF in Hoff.
  apply String.eqb_neq in Hperm.
  unfold notificationService.isNotificationSupported in Hsup.
  unfold notificationService.getNotificationPermission in Hperm.
  eexists. split; [| split; [| split]].
  - now rewrite (exec_handleNotificationChange e1 OFF).
  - now rewrite (exec_handleNotificationChange e1 OFF).
  - rewrite resolvePermission_handleNotificationChange by assumption.
    reflexivity.
  - split; reflexivity.
Qed.

End Component.

(** ** The properties at the concrete world *)

(** On [exampleWorld] a change to weekly waits for the permission prompt.
    Closed without permission, it ends with the alert and the frequency stays
    daily; closed with permission, the frequency becomes weekly. *)
Lemma notification_change_requires_permission_example :
  WEEKLY <> OFF /\
  let o := exec exampleStore exampleEnv (handleNotificationChange WEEKLY)
             exampleWorld in
  pendingOn o = Some AwaitPermission /\
  resolvePermission exampleStore exampleEnv false exampleWorld o
    = Some (Done tt (logged [Ev (alert msg_denied) tt]
                       (afterPrompt false exampleWorld))) /\
  notificationFreq
    (view (logged [Ev (alert msg_denied) tt] (afterPrompt false exampleWorld)))
    = DAILY /\
  notificationFreq (view (afterApply WEEKLY (afterPrompt true exampleWorld)))
    = WEEKLY.
Proof.
  assert (Hoff : WEEKLY <> OFF) by discriminate.
  split; [exact Hoff |].
  pose proof (notification_change_requires_permission
                exampleStore exampleEnv exampleWorld Hoff) as H.
  cbv zeta in H. cbn [negb] in H.
  destruct H as (Hpending & _ & _ & _ & Hprompt).
  destruct (Hprompt exampleEnv exampleWorld)
    as (Hdenied & Hfreq & _ & _ & _ & Hallowed & _).
  cbv zeta. repeat split; assumption.
Defined.

(** The empty file: the reader delivers the empty text, and the handler ends
    without calling the import routine. *)
Lemma empty_file_is_not_handed_to_import :
  let f := mkFile "" in
  let o := exec exampleStore exampleEnv (handleFileChange (Some f))
             exampleWorld in
  resolveRead exampleStore exampleEnv exampleWorld o
    = Some (Done tt (logged [Ev (readAsText f) ""] exampleWorld)) /\
  existsb isImport (log (logged [Ev (readAsText f) ""] exampleWorld)) = false.
Proof. cbv zeta. split; reflexivity. Qed.

(** A text that is not an export is refused, and the store is kept. *)
Example import_refuses_other_text :
  storageService.importUserData "backup" exampleStore = (false, exampleStore).
Proof. reflexivity. Qed.

(** The export of a store with two topic ids is read back. *)
Example import_reads_export :
  let s := storageService.mkStore
             (mkProfile "expert" (Some "Bratislava") dark (Some OFF))
             ["science"; "politics"] in
  storageService.importUserData (storageService.exportUserData s) exampleStore
  = (true, s).
Proof. vm_compute. reflexivity. Qed.

(** The mount effect over a store that already holds two ids shows both: the
    bound on the selection is a property of what the screen writes, not of
    what it loads. *)
Example mount_shows_two_stored_ids :
  let w := withStore (storageService.mkStore exampleProfile ["science"; "politics"])
             exampleWorld in
  selectedIds (view (worldOf (remount "default" exampleStore exampleEnv w)))
  = ["science"; "politics"].
Proof. reflexivity. Qed.

(** A topic is selected while the permission prompt is open; the prompt then
    closes with permission.  The selection and the new frequency are both in
    place, in the view and in the store. *)
Example selection_during_prompt :
  let s := run "default" exampleStore
             [(exampleEnv, Mount);
              (exampleEnv, ChangeNotification WEEKLY);
              (exampleEnv, ClickTopic "science");
              (exampleEnv, PromptClosed 0 true
                             (notificationService.mkPlatform true "granted"))]
             (initialSys "default" exampleProfile examplePlatform) in
  selectedIds (view (world s)) = ["science"] /\
  notificationFreq (view (world s)) = WEEKLY /\
  store (world s)
    = storageService.mkStore
        (mkProfile "default" None light (Some WEEKLY)) ["science"] /\
  tasks s = [].
Proof. cbv zeta. repeat split; reflexivity. Qed.

(** ** The further properties at a concrete catalogue *)

Lemma exampleTopics_distinct : NoDup (map topicId exampleTopics).
Proof.
  repeat constructor; cbn; intros H;
    repeat (destruct H as [H | H]; [discriminate H |]); exact H.
Qed.

(** The three topics fall into two groups, in the order in which the
    categories first occur. *)
Lemma groupedTopics_entries_example :
  groupedTopics exampleTopics = Some exampleGroups /\
  NoDup (map fst exampleGroups) /\
  (In ("Spoločnosť", [mkTopic "politics" "Politika" "Spoločnosť"])
      exampleGroups
   <-> [mkTopic "politics" "Politika" "Spoločnosť"]
       = ofCategory "Spoločnosť" exampleTopics /\
       [mkTopic "politics" "Politika" "Spoločnosť"] <> []).
Proof.
  split; [reflexivity |].
  pose proof (@groupedTopics_entries exampleTopics exampleGroups eq_refl)
    as [Hkeys Hentries].
  split; [exact Hkeys | apply Hentries].
Defined.

Lemma groupedTopics_partition_example :
  groupedTopics exampleTopics = Some exampleGroups /\
  Permutation (concat (map snd exampleGroups)) exampleTopics.
Proof.
  split; [reflexivity |].
  exact (@groupedTopics_partition exampleTopics exampleGroups eq_refl).
Defined.

Lemma topTopics_at_most_seven_example :
  NoDup (map topicId exampleTopics) /\
  length (topTopics exampleTopics) <= 7 /\
  topTopics exampleTopics
  = [mkTopic "science" "Veda" "Veda a budúcnosť";
     mkTopic "politics" "Politika" "Spoločnosť"].
Proof.
  split; [exact exampleTopics_distinct |].
  split; [| reflexivity].
  exact (proj1 (@topTopics_at_most_seven exampleTopics exampleTopics_distinct)).
Defined.

(** Selecting "space" marks that topic alone and highlights its category. *)
Lemma selected_topic_marks_its_category_example :
  let t := mkTopic "space" "Vesmír" "Veda a budúcnosť" in
  let v := view (worldOf (exec exampleStore exampleEnv (toggleTopic "space")
                            exampleWorld)) in
  NoDup (map topicId exampleTopics) /\
  In t exampleTopics /\
  groupedTopics exampleTopics = Some exampleGroups /\
  filter (isSelected v) exampleTopics = [t] /\
  highlighted v [mkTopic "politics" "Politika" "Spoločnosť"] = false.
Proof.
  cbv zeta.
  assert (Hin : In (mkTopic "space" "Vesmír" "Veda a budúcnosť") exampleTopics)
    by (right; right; left; reflexivity).
  split; [exact exampleTopics_distinct |].
  split; [exact Hin |].
  split; [reflexivity |].
  pose proof (@selected_topic_marks_its_category exampleStore exampleEnv
                exampleWorld exampleTopics exampleGroups _
                exampleTopics_distinct Hin eq_refl) as [Hone Hgroups].
  split; [exact Hone |].
  apply (Hgroups "Spoločnosť"). right. left. reflexivity.
Defined.

(** On [exampleWorld] the city is set to Bratislava while the prompt for a
    weekly digest is open; the prompt is then answered with permission. *)
Lemma city_edit_during_prompt_survives_example :
  WEEKLY <> OFF /\
  notificationService.isNotificationSupported (platform exampleWorld) = true /\
  notificationService.getNotificationPermission (platform exampleWorld)
    <> "granted" /\
  exists w2,
    resolvePermission exampleStore exampleEnv true
      (worldOf (exec exampleStore exampleEnv (handleCityChange "Bratislava")
                  (worldOf (exec exampleStore exampleEnv
                              (handleNotificationChange WEEKLY) exampleWorld))))
      (exec exampleStore exampleEnv (handleNotificationChange WEEKLY)
         exampleWorld)
    = Some (Done tt w2) /\
    storageService.getUserProfile (store w2)
    = mkProfile "default" (Some "Bratislava") light (Some WEEKLY).
Proof.
  assert (Hoff : WEEKLY <> OFF) by discriminate.
  assert (Hperm : notificationService.getNotificationPermission
                    (platform exampleWorld) <> "granted") by discriminate.
  split; [exact Hoff |]. split; [reflexivity |]. split; [exact Hperm |].
  destruct (@city_edit_during_prompt_survives exampleStore exampleEnv
              exampleEnv exampleEnv exampleWorld WEEKLY "Bratislava"
              Hoff eq_refl Hperm) as [w2 [Hres [Hprofile _]]].
  exists w2. split; [exact Hres | exact Hprofile].
Defined.

(** On [exampleWorld] notifications are switched off while the prompt for a
    weekly digest is open; the prompt is then answered with permission. *)
Lemma late_permission_overrides_switch_off_example :
  WEEKLY <> OFF /\
  notificationService.isNotificationSupported (platform exampleWorld) = true /\
  notificationService.getNotificationPermission (platform exampleWorld)
    <> "granted" /\
  exists w2,
    resolvePermission exampleStore exampleEnv true
      (worldOf (exec exampleStore exampleEnv (handleNotificationChange OFF)
                  (worldOf (exec exampleStore exampleEnv
                              (handleNotificationChange WEEKLY) exampleWorld))))
      (exec exampleStore exampleEnv (handleNotificationChange WEEKLY)
         exampleWorld)
    = Some (Done tt w2) /\
    notificationFreq (view w2) = WEEKLY.
Proof.
  assert (Hoff : WEEKLY <> OFF) by discriminate.
  assert (Hperm : notificationService.getNotificationPermission
                    (platform exampleWorld) <> "granted") by discriminate.
  split; [exact Hoff |]. split; [reflexivity |]. split; [exact Hperm |].
  destruct (@late_permission_overrides_switch_off exampleStore exampleEnv
              exampleEnv exampleEnv exampleWorld WEEKLY
              Hoff eq_refl Hperm) as [w2 (_ & _ & Hres & _ & Hview)].
  exists w2. split; [exact Hres | exact Hview].
Defined.

(** A catalogue with a topic filed under [toString] cannot be grouped. *)
Example groupedTopics_fails_example :
  groupedTopics [mkTopic "science" "Veda" "toString"] = None.
Proof. reflexivity. Qed.
